(** * AuditLens front end: a shallow embedding of the view and action code

    The single-page application keeps one mutable object [S] and renders it
    with template functions ([dashboard], [anomaliesTab], [matching],
    [triageTab], [app], [modal]); the actions ([api], [loadAll],
    [uploadFile], [saveEdits], the handlers installed by [bindEvents])
    update [S] from the answers of the HTTP API. The embedding follows the
    v2.5 front end, the version with sign-in and the AP Policy screen.

    Conventions of the embedding:
    - a JavaScript number is an exact rational ([Q]) or [NaN]; the rounding
      error of IEEE doubles and the infinities are not represented;
    - a record served by the API has the fields that the modelled code
      reads; a field that the code reads with a default ([x||0], [x||[]])
      may be missing, a field that it reads without one is present;
    - a template is represented by the values it interpolates (a record or a
      list per rendered element), not by the HTML text around them;
    - an asynchronous action is a function of the state and of the outcome of
      the requests it awaits;
    - what the host (browser) provides with a locale- or engine-defined
      result ([toLocaleString], [toFixed], [parseFloat], [parseInt]) is the
      interface [Host]. *)

From Stdlib Require Import ZArith QArith Qround Qabs Qminmax String Ascii List Lia Lqa Bool.
From stdpp Require Import base option list strings gmap pretty.
Import ListNotations.
Local Open Scope string_scope.

(** ** JavaScript values *)

Module Js.

(** A numeric value: what a JSON field holds when a template reads it (the
    key may be missing, [undefined], or hold [null]) and what arithmetic on
    such fields gives. *)
Inductive value : Type :=
| Undefined
| Null
| NaN
| Num (q : Q).

(** [Number(v)] *)
Definition to_number (v : value) : value :=
  match v with
  | Undefined => NaN
  | Null => Num 0
  | NaN => NaN
  | Num q => Num q
  end.

(** [v || 0]: [undefined], [null], [NaN] and zero are falsy. *)
Definition or0 (v : value) : Q :=
  match v with
  | Num q => q
  | _ => 0
  end.

Definition Qlt_bool (x y : Q) : bool := negb (Qle_bool y x).

(** [v >= 0]: the operand is converted to a number, and every comparison
    with [NaN] is false. *)
Definition ge0 (v : value) : bool :=
  match to_number v with
  | Num q => Qle_bool 0 q
  | _ => false
  end.

(** [Math.abs(v)] *)
Definition Math_abs (v : value) : value :=
  match to_number v with
  | Num q => Num (Qabs q)
  | _ => NaN
  end.

(** [a * b] *)
Definition mul (a b : value) : value :=
  match to_number a, to_number b with
  | Num x, Num y => Num (x * y)
  | _, _ => NaN
  end.

(** [Math.round(x)]: the nearest integer, a tie going up. *)
Definition Math_round (x : Q) : Z := Qfloor (x + (1 # 2)).

(** [s || d] on a string that may be missing: the empty string is falsy. *)
Definition str_or (s : option string) (d : string) : string :=
  match s with
  | Some (String c r) => String c r
  | _ => d
  end.

(** [s.split(sep)] for a one-character separator. *)
Fixpoint split (sep : ascii) (s : string) : list string :=
  match s with
  | EmptyString => [EmptyString]
  | String c r =>
      if Ascii.eqb c sep then EmptyString :: split sep r
      else match split sep r with
           | h :: t => String c h :: t
           | [] => [String c EmptyString]
           end
  end.

(** [String(v)] of a string that may be [undefined], as [FormData.append]
    and string concatenation convert it. *)
Definition to_string (s : option string) : string :=
  match s with
  | Some x => x
  | None => "undefined"
  end.

End Js.
Import Js.

(** ** The host interface *)

Class Host : Type := {
  (** [n.toLocaleString(undefined, {minimumFractionDigits: d,
      maximumFractionDigits: d})] *)
  toLocaleString : Q -> nat -> string;
  (** [n.toFixed(d)] *)
  toFixed : Q -> nat -> string;
  (** [parseFloat(s)] on a string *)
  parseFloat : string -> value;
  (** [parseInt(s)] on a string; [None] is [NaN] *)
  parseInt : string -> option Z
}.

(** ** Currency-aware formatters *)

Definition CUR_SYM : gmap string string :=
  list_to_map
    [("USD", "$"); ("INR", "₹"); ("EUR", "€"); ("GBP", "£");
     ("AED", "AED "); ("JPY", "¥"); ("CAD", "C$"); ("AUD", "A$")].

(** [CUR_SYM[cur] || cur + ' '] after [cur = cur || 'USD'] *)
Definition cur_prefix (cur : option string) : string :=
  let c := str_or cur "USD" in
  str_or (CUR_SYM !! c) (c ++ " ").

Definition fmt `{Host} (n : value) (cur : option string) : string :=
  let n := or0 (to_number n) in
  let s := cur_prefix cur in
  if Qle_bool 1000000 (Qabs n) then s ++ toFixed (n / 1000000) 1 ++ "M"
  else if Qle_bool 10000 (Qabs n) then s ++ toFixed (n / 1000) 1 ++ "K"
  else s ++ toLocaleString n 0.

Definition fmtx `{Host} (n : value) (cur : option string) : string :=
  let n := or0 (to_number n) in
  let s := cur_prefix cur in
  s ++ toLocaleString n 2.

(** ** Records served by the API *)

Module Match.
Record t : Type := {
  id : string;
  status : string;
  matchType : string;
  overInvoiced : bool;
  invoiceAmount : Q;
  poAmount : Q;
  poAlreadyInvoiced : value
}.
End Match.

Module Anomaly.
Record t : Type := {
  id : string;
  status : string;
  amount_at_risk : value;
  currency : option string
}.
End Anomaly.

Module LineItem.
Record t : Type := {
  description : option string;
  quantity : value;
  unitPrice : value;
  total : value
}.
End LineItem.

Module Doc.
Record t : Type := {
  id : string;
  type : string;
  triageLane : option string;
  currency : option string;
  lineItems : option (list LineItem.t)
}.
End Doc.

(** [d.aging]: the amounts and the invoice counts by bucket key. *)
Module Aging.
Record t : Type := {
  buckets : gmap string Q;
  counts : gmap string Z
}.
End Aging.

Module Dash.
Record t : Type := {
  aging : option Aging.t;
  api_mode : option string
}.
End Dash.

(** ** PO Matching table *)

Module MatchRow.
Record t : Type := {
  m : Match.t;
  fulPct : Z;        (* the number before the percent sign *)
  barWidth : Z;      (* Math.min(fulPct, 100) *)
  barColor : string;
  actions : bool     (* approve and reject buttons *)
}.
End MatchRow.

(** [m.poAmount>0 ? Math.round(((m.poAlreadyInvoiced||0)+m.invoiceAmount)
    /m.poAmount*100) : 0] *)
Definition fulPct (m : Match.t) : Z :=
  if Qlt_bool 0 (Match.poAmount m)
  then Math_round ((or0 (Match.poAlreadyInvoiced m) + Match.invoiceAmount m)
                   / Match.poAmount m * 100)
  else 0%Z.

Definition matching_row (m : Match.t) : MatchRow.t :=
  let oi := Match.overInvoiced m in
  let p := fulPct m in
  {| MatchRow.m := m;
     MatchRow.fulPct := p;
     MatchRow.barWidth := Z.min p 100;
     MatchRow.barColor :=
       if oi then "var(--dg)"
       else if (90 <? p)%Z then "var(--wn)" else "var(--ok)";
     MatchRow.actions := bool_decide (Match.status m = "review_needed") |}.


(** ** Anomalies view *)

Module OpenCard.
Record t : Type := {
  a : Anomaly.t;
  shown : value;     (* the amount handed to fmtx *)
  savings : bool;    (* whether the label ' savings' follows *)
  text : string
}.
End OpenCard.

Module AnomaliesView.
Record t : Type := {
  open_count : nat;
  resolved_count : nat;
  risk : Q;
  risk_text : string;
  open_cards : list OpenCard.t;
  resolved_cards : list Anomaly.t
}.
End AnomaliesView.

(** [a.amount_at_risk>=0 ? fmtx(a.amount_at_risk,a.currency||'USD')
    : fmtx(Math.abs(a.amount_at_risk),a.currency||'USD')+' savings'] *)
Definition open_card `{Host} (a : Anomaly.t) : OpenCard.t :=
  let cur := Some (str_or (Anomaly.currency a) "USD") in
  if ge0 (Anomaly.amount_at_risk a)
  then {| OpenCard.a := a;
          OpenCard.shown := Anomaly.amount_at_risk a;
          OpenCard.savings := false;
          OpenCard.text := fmtx (Anomaly.amount_at_risk a) cur |}
  else {| OpenCard.a := a;
          OpenCard.shown := Math_abs (Anomaly.amount_at_risk a);
          OpenCard.savings := true;
          OpenCard.text :=
            fmtx (Math_abs (Anomaly.amount_at_risk a)) cur ++ " savings" |}.

(** [open.reduce((s,a)=>s+(a.amount_at_risk||0),0)] *)
Definition at_risk (open : list Anomaly.t) : Q :=
  fold_left (fun s a => (s + or0 (Anomaly.amount_at_risk a))%Q) open 0%Q.

Definition anomaliesTab `{Host} (anomalies : list Anomaly.t)
  : AnomaliesView.t :=
  let open := filter (fun a => Anomaly.status a = "open") anomalies in
  let resolved := filter (fun a => Anomaly.status a <> "open") anomalies in
  let risk := at_risk open in
  {| AnomaliesView.open_count := length open;
     AnomaliesView.resolved_count := length resolved;
     AnomaliesView.risk := risk;
     AnomaliesView.risk_text := fmt (Num risk) None;
     AnomaliesView.open_cards := map open_card open;
     AnomaliesView.resolved_cards := take 10 resolved |}.

(** ** Dashboard: the AR aging chart *)

Module Bucket.
Record t : Type := { k : string; l : string; c : string }.
End Bucket.

Definition bk : list Bucket.t :=
  [ {| Bucket.k := "current"; Bucket.l := "Current"; Bucket.c := "var(--al)" |};
    {| Bucket.k := "1_30"; Bucket.l := "1-30"; Bucket.c := "var(--wn)" |};
    {| Bucket.k := "31_60"; Bucket.l := "31-60"; Bucket.c := "#f97316" |};
    {| Bucket.k := "61_90"; Bucket.l := "61-90"; Bucket.c := "var(--dg)" |};
    {| Bucket.k := "90_plus"; Bucket.l := "90+"; Bucket.c := "#b91c1c" |} ].

Module Bar.
Record t : Type := {
  k : string;
  l : string;
  a : Q;             (* amount, shown as fmt(a) *)
  n : Z;             (* invoice count *)
  h : Q;             (* height in pixels *)
  a_text : string
}.
End Bar.

(** [d.aging||{buckets:{},counts:{}}] *)
Definition aging_or_empty (d : Dash.t) : Aging.t :=
  match Dash.aging d with
  | Some ag => ag
  | None => {| Aging.buckets := ∅; Aging.counts := ∅ |}
  end.

(** [Math.max(...bk.map(b=>ag.buckets[b.k]||0),1)] *)
Definition chart_max (ag : Aging.t) : Q :=
  fold_right Qmax 1%Q
    (map (fun b => default 0%Q (Aging.buckets ag !! Bucket.k b)) bk).

Definition aging_bar `{Host} (ag : Aging.t) (mx : Q) (b : Bucket.t) : Bar.t :=
  let a := default 0%Q (Aging.buckets ag !! Bucket.k b) in
  let n := default 0%Z (Aging.counts ag !! Bucket.k b) in
  {| Bar.k := Bucket.k b;
     Bar.l := Bucket.l b;
     Bar.a := a;
     Bar.n := n;
     Bar.h := Qmax 6 (a / mx * 110)%Q;
     Bar.a_text := fmt (Num a) None |}.

(** The bars of the chart in [dashboard(d,ag)], called from [app] with
    [ag = d.aging||{buckets:{},counts:{}}]. *)
Definition aging_chart `{Host} (d : Dash.t) : list Bar.t :=
  let ag := aging_or_empty d in
  map (aging_bar ag (chart_max ag)) bk.

(** ** Triage view *)

Module Card.
Record t : Type := {
  doc : Doc.t;
  overrides : list string   (* the data-override attribute of each button *)
}.
End Card.

Module TriageView.
Record t : Type := {
  auto_count : nat;
  pct : Z;
  review_count : nat;
  blocked_count : nat;
  blocked_cards : list Card.t;
  review_cards : list Card.t;
  auto_rows : list Doc.t;
  empty_notice : bool
}.
End TriageView.

Definition is_invoice_type (d : Doc.t) : Prop :=
  Doc.type d = "invoice" \/ Doc.type d = "credit_note"
  \/ Doc.type d = "debit_note".

#[global] Instance is_invoice_type_dec d : Decision (is_invoice_type d).
Proof. unfold is_invoice_type. apply _. Defined.

(** [data-override="${i.id}:LANE"] *)
Definition override_attr (i : Doc.t) (lane : string) : string :=
  Doc.id i ++ ":" ++ lane.

Definition triageTab (docs : list Doc.t) : TriageView.t :=
  let inv := filter is_invoice_type docs in
  let auto := filter (fun i => Doc.triageLane i = Some "AUTO_APPROVE") inv in
  let review := filter (fun i => Doc.triageLane i = Some "REVIEW") inv in
  let blocked := filter (fun i => Doc.triageLane i = Some "BLOCK") inv in
  let pct :=
    if (0 <? length inv)%nat
    then Math_round (inject_Z (Z.of_nat (length auto))
                     / inject_Z (Z.of_nat (length inv)) * 100)
    else 0%Z in
  {| TriageView.auto_count := length auto;
     TriageView.pct := pct;
     TriageView.review_count := length review;
     TriageView.blocked_count := length blocked;
     TriageView.blocked_cards :=
       map (fun i => {| Card.doc := i;
                        Card.overrides := [override_attr i "AUTO_APPROVE";
                                           override_attr i "REVIEW"] |})
           blocked;
     TriageView.review_cards :=
       map (fun i => {| Card.doc := i;
                        Card.overrides := [override_attr i "AUTO_APPROVE";
                                           override_attr i "BLOCK"] |})
           review;
     TriageView.auto_rows := take 15 auto;
     TriageView.empty_notice := bool_decide (length inv = 0%nat) |}.

(** ** Triage override: the click handler of [data-override] elements

    [bindEvents] installs the handler on every element that carries a
    data-override attribute; only the cards of [triageTab] do. *)

Module OverrideRequest.
Record t : Type := {
  path : string;
  lane : string;     (* form field 'lane' *)
  reason : string    (* form field 'reason' *)
}.
End OverrideRequest.


(** Whether a character occurs in a string. *)
Fixpoint occurs (c : ascii) (s : string) : bool :=
  match s with
  | EmptyString => false
  | String x r => Ascii.eqb x c || occurs c r
  end.

(** ** Application state *)

Module User.
Record t : Type := {
  name : option string;
  email : option string;
  role : option string
}.
End User.

Module Vendor.
Record t : Type := {
  vendor : string;
  riskLevel : string
}.
End Vendor.

Module Proc.
Record t : Type := { fn : string; st : nat; cur : nat; total : nat }.
End Proc.

(** A scalar of a JSON object kept as it came ([S.policy], [S.triageData]). *)
Inductive scalar : Type :=
| SBool (b : bool)
| SNum (q : Q)
| SStr (s : string).

Module State.
Record t : Type := {
  scr : string;
  tab : string;
  docs : list Doc.t;
  matches : list Match.t;
  anomalies : list Anomaly.t;
  dash : Dash.t;
  vendors : list Vendor.t;
  triageData : gmap string scalar;
  proc : option Proc.t;
  sel : option Doc.t;
  toast : option string;
  ut : string;
  api : option string;
  editing : bool;
  editFields : list (string * string);   (* keys in insertion order *)
  modalView : string;
  currentRole : string;
  policy : gmap string scalar;
  authToken : option string;
  authUser : option User.t
}.
End State.

(** The state object [S], the session storage of the page, and the requests
    issued so far ([fetch] paths, oldest first). *)
Module World.
Record t : Type := {
  S : State.t;
  sessionStorage : gmap string string;
  calls : list string
}.
End World.

Definition with_S (f : State.t -> State.t) (w : World.t) : World.t :=
  {| World.S := f (World.S w);
     World.sessionStorage := World.sessionStorage w;
     World.calls := World.calls w |}.

Definition set_toast (m : option string) (s : State.t) : State.t :=
  {| State.scr := State.scr s; State.tab := State.tab s;
     State.docs := State.docs s; State.matches := State.matches s;
     State.anomalies := State.anomalies s; State.dash := State.dash s;
     State.vendors := State.vendors s; State.triageData := State.triageData s;
     State.proc := State.proc s; State.sel := State.sel s;
     State.toast := m;
     State.ut := State.ut s; State.api := State.api s;
     State.editing := State.editing s; State.editFields := State.editFields s;
     State.modalView := State.modalView s;
     State.currentRole := State.currentRole s; State.policy := State.policy s;
     State.authToken := State.authToken s; State.authUser := State.authUser s |}.

Definition set_proc (p : option Proc.t) (s : State.t) : State.t :=
  {| State.scr := State.scr s; State.tab := State.tab s;
     State.docs := State.docs s; State.matches := State.matches s;
     State.anomalies := State.anomalies s; State.dash := State.dash s;
     State.vendors := State.vendors s; State.triageData := State.triageData s;
     State.proc := p; State.sel := State.sel s;
     State.toast := State.toast s;
     State.ut := State.ut s; State.api := State.api s;
     State.editing := State.editing s; State.editFields := State.editFields s;
     State.modalView := State.modalView s;
     State.currentRole := State.currentRole s; State.policy := State.policy s;
     State.authToken := State.authToken s; State.authUser := State.authUser s |}.

(** [S.authToken=null;S.authUser=null;S.scr='login'] *)
Definition drop_auth (s : State.t) : State.t :=
  {| State.scr := "login"; State.tab := State.tab s;
     State.docs := State.docs s; State.matches := State.matches s;
     State.anomalies := State.anomalies s; State.dash := State.dash s;
     State.vendors := State.vendors s; State.triageData := State.triageData s;
     State.proc := State.proc s; State.sel := State.sel s;
     State.toast := State.toast s;
     State.ut := State.ut s; State.api := State.api s;
     State.editing := State.editing s; State.editFields := State.editFields s;
     State.modalView := State.modalView s;
     State.currentRole := State.currentRole s; State.policy := State.policy s;
     State.authToken := None; State.authUser := None |}.

(** [toast(m)]: [S.toast=m;R()]. The timer that clears the toast four
    seconds later is a later event and is not part of the action. *)
Definition toast (m : string) (w : World.t) : World.t :=
  with_S (set_toast (Some m)) w.

(** ** The application shell: navigation and the main pane *)

(** [S.authUser?.role||S.currentRole] *)
Definition user_role (s : State.t) : string :=
  str_or (State.authUser s ≫= User.role) (State.currentRole s).

Inductive MainView : Type :=
| VDashboard | VTriage | VDocuments | VAnomalies | VMatching | VVendors
| VContracts | VSettings | VAccessRestricted | VUpload.

(** The ternary chain inside [<main class="mc">]. *)
Definition main_view (s : State.t) : MainView :=
  let tab := State.tab s in
  if bool_decide (tab = "dashboard") then VDashboard
  else if bool_decide (tab = "triage") then VTriage
  else if bool_decide (tab = "documents") then VDocuments
  else if bool_decide (tab = "anomalies") then VAnomalies
  else if bool_decide (tab = "matching") then VMatching
  else if bool_decide (tab = "vendors") then VVendors
  else if bool_decide (tab = "contracts") then VContracts
  else if bool_decide (tab = "settings") then
    if bool_decide (user_role s ∈ ["cfo"; "vp"; "manager"]) then VSettings
    else VAccessRestricted
  else VUpload.

(** The ids of the navigation buttons, in order. *)
Definition nav_tabs (s : State.t) : list string :=
  let ur := str_or (Some (user_role s)) "analyst" in
  let isAdmin := bool_decide (ur = "cfo") || bool_decide (ur = "vp") in
  let isMgr := isAdmin || bool_decide (ur = "manager") in
  let tabs := ["dashboard"; "triage"; "documents"; "anomalies"; "matching";
               "vendors"; "contracts"; "upload"] in
  if isMgr then tabs ++ ["settings"] else tabs.

Inductive Screen : Type :=
| LoginScreen
| Landing
| App (nav : list string) (main : MainView).

(** What [R()] renders. *)
Definition R (s : State.t) : Screen :=
  if bool_decide (State.scr s = "login") then LoginScreen
  else if bool_decide (State.scr s = "landing") then Landing
  else App (nav_tabs s) (main_view s).

(** ** The API helper *)

(** A parsed response body: JSON [null], or an object seen through the
    fields its callers read. A body that lacks a key reads [None] there, so
    an error body such as [{"detail": ...}] has every field of [T] missing. *)
Module Body.
Record obj (T : Type) : Type := {
  detail : option string;
  fields : T
}.
Arguments detail {T} _.
Arguments fields {T} _.
Inductive t (T : Type) : Type :=
| JNull
| JObj (o : obj T).
Arguments JNull {T}.
Arguments JObj {T} _.
End Body.

(** The outcome of [fetch(p,o)] followed by [r.json()]. *)
Inductive fetched (T : Type) : Type :=
| Rejected                                   (* fetch rejects: no response *)
| Response (status : nat) (json : option (Body.t T)).
                                             (* [None]: r.json() rejects *)
Arguments Rejected {T}.
Arguments Response {T} _ _.

(** [r.ok] *)
Definition ok (status : nat) : bool :=
  (200 <=? status)%nat && (status <=? 299)%nat.

Inductive completion (A : Type) : Type :=
| Normal (a : A)
| Throw.
Arguments Normal {A} _.
Arguments Throw {A}.

Definition log_call (p : string) (w : World.t) : World.t :=
  {| World.S := World.S w;
     World.sessionStorage := World.sessionStorage w;
     World.calls := World.calls w ++ [p] |}.

(** The 401 branch: the session is dropped from [S] and from the storage. *)
Definition expire_session (w : World.t) : World.t :=
  {| World.S := drop_auth (World.S w);
     World.sessionStorage :=
       delete "al_user" (delete "al_token" (World.sessionStorage w));
     World.calls := World.calls w |}.

(** The statements of [api] inside [try]. The value is [j], [None] standing
    for [null]. The request headers are not represented. *)
Definition api_try {T} (p : string) (r : fetched T) (w : World.t)
  : World.t * completion (option (Body.obj T)) :=
  let w := log_call p w in
  match r with
  | Rejected => (w, Throw)
  | Response status json =>
      if (status =? 401)%nat then (expire_session w, Normal None)
      else
        match json with
        | None => (w, Throw)
        | Some j =>
            if negb (ok status) && (status =? 403)%nat then
              match j with
              | Body.JNull => (w, Throw)           (* j.detail of null *)
              | Body.JObj o =>
                  (toast (str_or (Body.detail o) "Insufficient authority") w,
                   Normal None)
              end
            else
              match j with
              | Body.JNull => (w, Normal None)
              | Body.JObj o => (w, Normal (Some o))
              end
        end
  end.

(** [api(p,o)]: [try{...}catch(e){console.error('API:',e);return null}] *)
Definition api {T} (p : string) (r : fetched T) (w : World.t)
  : World.t * completion (option (Body.obj T)) :=
  match api_try p r w with
  | (w', Normal j) => (w', Normal j)
  | (w', Throw) => (w', Normal None)
  end.

(** The value [api] resolves to, read off the outcome of the request. *)
Definition api_value {T} (r : fetched T) : option (Body.obj T) :=
  match r with
  | Rejected => None
  | Response status json =>
      if (status =? 401)%nat then None
      else if negb (ok status) && (status =? 403)%nat then None
      else match json with
           | Some (Body.JObj o) => Some o
           | _ => None
           end
  end.

(** [api] as its callers use it: the world after the call and the value. *)
Definition await_api {T} (p : string) (r : fetched T) (w : World.t)
  : World.t * option (Body.obj T) :=
  match api p r w with
  | (w', Normal j) => (w', j)
  | (w', Throw) => (w', None)
  end.

(** ** Reloading the collections *)

Module Reads.
Record t : Type := {
  dashboard : fetched Dash.t;
  documents : fetched (option (list Doc.t));        (* field documents *)
  matches : fetched (option (list Match.t));        (* field matches *)
  anomalies : fetched (option (list Anomaly.t));    (* field anomalies *)
  vendors : fetched (option (list Vendor.t));       (* field vendors *)
  triage : fetched (gmap string scalar);            (* the body itself *)
  policy : fetched (option (gmap string scalar))    (* field policy *)
}.
End Reads.

(** The seven guarded assignments of [loadAll]. *)
Definition assign_reads (s : State.t)
    (d : option (Body.obj Dash.t))
    (dc : option (Body.obj (option (list Doc.t))))
    (m : option (Body.obj (option (list Match.t))))
    (an : option (Body.obj (option (list Anomaly.t))))
    (vnd : option (Body.obj (option (list Vendor.t))))
    (tri : option (Body.obj (gmap string scalar)))
    (pol : option (Body.obj (option (gmap string scalar)))) : State.t :=
  {| State.scr := State.scr s; State.tab := State.tab s;
     State.docs :=
       match dc with
       | Some o => default [] (Body.fields o)
       | None => State.docs s
       end;
     State.matches :=
       match m with
       | Some o => default [] (Body.fields o)
       | None => State.matches s
       end;
     State.anomalies :=
       match an with
       | Some o => default [] (Body.fields o)
       | None => State.anomalies s
       end;
     State.dash :=
       match d with
       | Some o => Body.fields o
       | None => State.dash s
       end;
     State.vendors :=
       match vnd with
       | Some o => default [] (Body.fields o)
       | None => State.vendors s
       end;
     State.triageData :=
       match tri with
       | Some o => Body.fields o
       | None => State.triageData s
       end;
     State.proc := State.proc s; State.sel := State.sel s;
     State.toast := State.toast s;
     State.ut := State.ut s;
     State.api :=
       match d with
       | Some o => Dash.api_mode (Body.fields o)
       | None => State.api s
       end;
     State.editing := State.editing s; State.editFields := State.editFields s;
     State.modalView := State.modalView s;
     State.currentRole := State.currentRole s;
     State.policy :=
       match pol with
       | Some o => default ∅ (Body.fields o)
       | None => State.policy s
       end;
     State.authToken := State.authToken s; State.authUser := State.authUser s |}.

(** [loadAll()]. The seven requests are issued together; the effects of
    their [api] calls on [S] (a dropped session, a toast) are taken in the
    order of the array, and none of them touches a collection. *)
Definition loadAll (rs : Reads.t) (w : World.t) : World.t :=
  let '(w, d) := await_api "/api/dashboard" (Reads.dashboard rs) w in
  let '(w, dc) := await_api "/api/documents" (Reads.documents rs) w in
  let '(w, m) := await_api "/api/matches" (Reads.matches rs) w in
  let '(w, an) := await_api "/api/anomalies" (Reads.anomalies rs) w in
  let '(w, vnd) := await_api "/api/vendors" (Reads.vendors rs) w in
  let '(w, tri) := await_api "/api/triage" (Reads.triage rs) w in
  let '(w, pol) := await_api "/api/policy" (Reads.policy rs) w in
  with_S (fun s => assign_reads s d dc m an vnd tri pol) w.

(** The data that [loadAll] reloads. *)
Definition collections (s : State.t) :=
  (State.dash s, State.api s, State.docs s, State.matches s,
   State.anomalies s, State.vendors s, State.triageData s, State.policy s).

(** The paths of the reads of [loadAll], in the order of the requests. *)
Definition reload_paths : list string :=
  ["/api/dashboard"; "/api/documents"; "/api/matches"; "/api/anomalies";
   "/api/vendors"; "/api/triage"; "/api/policy"].

(** ** Uploading one file *)

Module Uploaded.
Record doc : Type := { type : string; confidence : Q }.
Record t : Type := {
  success : bool;                      (* truthiness of r.success *)
  error : option string;
  document : option doc;
  new_anomalies : option nat;          (* r.new_anomalies?.length *)
  triage : option (option string);     (* r.triage, and its lane *)
  total_ms : option Q                  (* r.processing_time.total_ms, when
                                          r.processing_time is there *)
}.
End Uploaded.

Definition typLabel (t : string) : string :=
  str_or (({[ "invoice" := "INV"; "purchase_order" := "PO";
              "contract" := "CTR"; "credit_note" := "CN";
              "debit_note" := "DN"; "goods_receipt" := "GRN" ]}
           : gmap string string) !! t) t.

(** The toast of a successful upload. *)
Definition upload_msg `{Host} (r : Uploaded.t) (d : Uploaded.doc) : string :=
  let dt := Uploaded.type d in
  let nm := default 0%nat (Uploaded.new_anomalies r) in
  let msg :=
    typLabel dt ++ " extracted — "
    ++ pretty (Math_round (Uploaded.confidence d)) ++ "% confidence" in
  let msg :=
    match Uploaded.total_ms r with
    | Some ms =>
        if Qeq_bool ms 0 then msg
        else msg ++ " | " ++ toFixed (ms / 1000) 1 ++ "s total"
    | None => msg
    end in
  let msg :=
    if (0 <? nm)%nat
    then msg ++ " | " ++ pretty nm ++ " anomal"
         ++ (if (nm =? 1)%nat then "y" else "ies") ++ " detected!"
    else msg in
  match Uploaded.triage r with
  | Some lane =>
      if bool_decide (dt = "invoice")
      then msg ++ " | Triage: "
           ++ (if bool_decide (lane = Some "AUTO_APPROVE")
               then "✓ Auto-Approved"
               else if bool_decide (lane = Some "BLOCK") then "⛔ Blocked"
               else "🔍 Review")
      else msg
  | None => msg
  end.

(** [S] while the upload request is pending, after [ticks] firings of the
    progress timer. *)
Definition upload_pending (fname : string) (ticks : nat) (w : World.t)
  : World.t :=
  with_S (set_proc (Some {| Proc.fn := fname; Proc.st := Nat.min ticks 5;
                            Proc.cur := 1; Proc.total := 1 |})) w.

(** [uploadFile(f)]: [r] is the outcome of the upload request, [rs] the
    outcomes of the reads of the reload, should it take place. *)
Definition uploadFile `{Host} (fname : string) (ticks : nat)
    (r : fetched Uploaded.t) (rs : Reads.t) (w : World.t)
  : World.t * completion unit :=
  let w := upload_pending fname ticks w in
  let '(w, r) := await_api "/api/upload" r w in
  let w := with_S (set_proc None) w in
  match r with
  | Some o =>
      let u := Body.fields o in
      if Uploaded.success u then
        match Uploaded.document u with
        | Some d => (loadAll rs (toast (upload_msg u d) w), Normal tt)
        | None => (w, Throw)              (* r.document.type of undefined *)
        end
      else (toast (str_or (Uploaded.error u) "Extraction failed") w, Normal tt)
  | None => (toast "Extraction failed" w, Normal tt)
  end.

(** ** The document modal: line items *)






Module LineRow.
Record t : Type := {
  inputs : list string;   (* the data-ef keys of the row; none when reading *)
  tot : Q;                (* the live total, computed in both modes *)
  total_text : string     (* the text of the Total cell *)
}.
End LineRow.



(** ** Saving corrections *)

(** [parseInt(idx)] of the second part of the key, as an index of [lis]:
    [lis[i]] is [undefined] for [NaN] and for a negative [i]. *)
Definition li_index `{Host} (k : string) : option nat :=
  match (split "_" k !! 1%nat) ≫= parseInt with
  | Some z => if (0 <=? z)%Z then Some (Z.to_nat z) else None
  | None => None
  end.

Definition li_field (k : string) : option string := split "_" k !! 2%nat.

Definition set_quantity (x : value) (li : LineItem.t) : LineItem.t :=
  {| LineItem.description := LineItem.description li;
     LineItem.quantity := x;
     LineItem.unitPrice := LineItem.unitPrice li;
     LineItem.total := LineItem.total li |}.

Definition set_unitPrice (x : value) (li : LineItem.t) : LineItem.t :=
  {| LineItem.description := LineItem.description li;
     LineItem.quantity := LineItem.quantity li;
     LineItem.unitPrice := x;
     LineItem.total := LineItem.total li |}.

Definition set_description (x : option string) (li : LineItem.t)
  : LineItem.t :=
  {| LineItem.description := x;
     LineItem.quantity := LineItem.quantity li;
     LineItem.unitPrice := LineItem.unitPrice li;
     LineItem.total := LineItem.total li |}.

Definition set_total (x : value) (li : LineItem.t) : LineItem.t :=
  {| LineItem.description := LineItem.description li;
     LineItem.quantity := LineItem.quantity li;
     LineItem.unitPrice := LineItem.unitPrice li;
     LineItem.total := x |}.

(** The body of [liKeys.forEach(k=>...)] for the key [k] holding [v]. *)
Definition li_key_step `{Host} (lis : list LineItem.t) (kv : string * string)
  : list LineItem.t :=
  let '(k, v) := kv in
  match li_index k with
  | Some i =>
      match lis !! i with
      | Some li =>
          let li :=
            if bool_decide (li_field k = Some "qty")
            then set_quantity (Num (or0 (parseFloat v))) li
            else if bool_decide (li_field k = Some "price")
            then set_unitPrice (Num (or0 (parseFloat v))) li
            else if bool_decide (li_field k = Some "desc")
            then set_description (Some v) li
            else li in
          <[i := set_total (mul (LineItem.quantity li) (LineItem.unitPrice li))
                           li]> lis
      | None => lis
      end
  | None => lis
  end.

Definition is_li_key (kv : string * string) : bool :=
  String.prefix "li_" (fst kv).

(** A scalar of the submitted fields. *)
Inductive pv : Type :=
| PStr (s : string)
| PNum (q : Q).

(** [['amount','subtotal'].forEach(f=>{if(ef[f])ef[f]=parseFloat(ef[f])||0})] *)
Definition parse_numeric `{Host} (kv : string * string) : string * pv :=
  let '(k, v) := kv in
  if (bool_decide (k = "amount") || bool_decide (k = "subtotal"))
     && negb (bool_decide (v = ""))
  then (k, PNum (or0 (parseFloat v)))
  else (k, PStr v).

Module EditRequest.
Record t : Type := {
  path : string;
  fields : list (string * pv);          (* the keys left in ef *)
  lineItems : option (list LineItem.t)  (* ef.lineItems, when set *)
}.
End EditRequest.

(** [saveEdits()] up to the request it posts: [None] when it returns
    without one. The in-place write of [total] reaches an object of [S.sel]
    only for a key whose third part is none of qty, price and desc; that
    write and the handling of the response are left out. *)
Definition saveEdits_request `{Host} (s : State.t) : option EditRequest.t :=
  match State.sel s with
  | None => None
  | Some sel =>
      if negb (State.editing s) then None
      else
        let ef := State.editFields s in
        match ef with
        | [] => None
        | _ =>
            let liKeys := List.filter is_li_key ef in
            let rest := List.filter (fun kv => negb (is_li_key kv)) ef in
            Some {| EditRequest.path :=
                      "/api/documents/" ++ Doc.id sel ++ "/edit-fields";
                    EditRequest.fields := map parse_numeric rest;
                    EditRequest.lineItems :=
                      match liKeys with
                      | [] => None
                      | _ => Some (fold_left li_key_step liKeys
                                     (default [] (Doc.lineItems sel)))
                      end |}
        end
  end.





(** ** A reference host

    An en-US host with exact decimal arithmetic, used to run the definitions
    on examples; every statement below holds for any host. *)

Module Reference.

Definition digit_of (c : ascii) : option Z :=
  let n := nat_of_ascii c in
  if (48 <=? n)%nat && (n <=? 57)%nat then Some (Z.of_nat (n - 48)) else None.

(** The value of the leading decimal digits, how many there are, and the
    rest of the string. *)
Fixpoint digits (s : string) (acc : Z) (len : nat) : Z * nat * string :=
  match s with
  | EmptyString => (acc, len, s)
  | String c r =>
      match digit_of c with
      | Some d => digits r (10 * acc + d)%Z (S len)
      | None => (acc, len, s)
      end
  end.

Fixpoint skip_spaces (s : string) : string :=
  match s with
  | String " " r => skip_spaces r
  | _ => s
  end.

Definition sign_of (s : string) : Z * string :=
  match s with
  | String "-" r => ((-1)%Z, r)
  | String "+" r => (1%Z, r)
  | _ => (1%Z, s)
  end.

Definition parse_int (s : string) : option Z :=
  let '(sg, s) := sign_of (skip_spaces s) in
  let '(n, len, _) := digits s 0%Z 0%nat in
  if (len =? 0)%nat then None else Some (sg * n)%Z.

Definition parse_float (s : string) : value :=
  let '(sg, s) := sign_of (skip_spaces s) in
  let '(n, len, s) := digits s 0%Z 0%nat in
  let '(f, flen) :=
    match s with
    | String "." r => let '(f, flen, _) := digits r 0%Z 0%nat in (f, flen)
    | _ => (0%Z, 0%nat)
    end in
  if (len + flen =? 0)%nat then NaN
  else Num (inject_Z sg
            * (inject_Z n + inject_Z f / inject_Z (10 ^ Z.of_nat flen)))%Q.

Fixpoint group_rev (n : nat) (l : list ascii) : list ascii :=
  match l with
  | [] => []
  | c :: r =>
      match n with
      | 3%nat => ","%char :: c :: group_rev 1 r
      | _ => c :: group_rev (S n) r
      end
  end.

Definition group3 (s : string) : string :=
  string_of_list_ascii
    (rev (group_rev 0 (rev (list_ascii_of_string s)))).

Fixpoint pad_left (n : nat) (s : string) : string :=
  match n with
  | O => s
  | S n' => if (String.length s <? n)%nat then pad_left n' ("0" ++ s) else s
  end.

(** [q] with [d] fraction digits, a tie rounded away from zero. *)
Definition decimal (grouping : bool) (q : Q) (d : nat) : string :=
  let p := (10 ^ Z.of_nat d)%Z in
  let m := Qfloor (Qabs q * inject_Z p + (1 # 2)) in
  let ip := pretty (m / p)%Z in
  (if Qlt_bool q 0 then "-" else "")
  ++ (if grouping then group3 ip else ip)
  ++ (if (d =? 0)%nat then "" else "." ++ pad_left d (pretty (m mod p)%Z)).

Definition host : Host :=
  {| toLocaleString := decimal true;
     toFixed := decimal false;
     parseFloat := parse_float;
     parseInt := parse_int |}.

End Reference.

(** ** The total at risk, as the specification words it

    The signed sum of [amount_at_risk], a missing value counting for zero,
    over the anomalies whose status is open. *)
Fixpoint open_total (anomalies : list Anomaly.t) : Q :=
  match anomalies with
  | [] => 0
  | a :: rest =>
      if bool_decide (Anomaly.status a = "open")
      then (or0 (Anomaly.amount_at_risk a) + open_total rest)%Q
      else open_total rest
  end.

(** ** Sample data *)

Module Sample.

Definition m_partial : Match.t :=
  {| Match.id := "m1"; Match.status := "auto_matched";
     Match.matchType := "two_way"; Match.overInvoiced := false;
     Match.invoiceAmount := 250; Match.poAmount := 1000;
     Match.poAlreadyInvoiced := Num 505 |}.


Definition a_overcharge : Anomaly.t :=
  {| Anomaly.id := "a1"; Anomaly.status := "open";
     Anomaly.amount_at_risk := Num (123456 # 100);
     Anomaly.currency := None |}.

Definition a_discount : Anomaly.t :=
  {| Anomaly.id := "a2"; Anomaly.status := "open";
     Anomaly.amount_at_risk := Num (-(40 # 1));
     Anomaly.currency := Some "EUR" |}.

Definition a_resolved : Anomaly.t :=
  {| Anomaly.id := "a3"; Anomaly.status := "resolved";
     Anomaly.amount_at_risk := Num 900;
     Anomaly.currency := None |}.

Definition invoice (id : string) (lane : option string) : Doc.t :=
  {| Doc.id := id; Doc.type := "invoice"; Doc.triageLane := lane;
     Doc.currency := None; Doc.lineItems := None |}.


Definition s_loaded : State.t :=
  {| State.scr := "app"; State.tab := "documents";
     State.docs := [invoice "d1" (Some "REVIEW")];
     State.matches := []; State.anomalies := [a_overcharge];
     State.dash := {| Dash.aging := None; Dash.api_mode := Some "mock" |};
     State.vendors := []; State.triageData := ∅; State.proc := None;
     State.sel := None; State.toast := None; State.ut := "auto";
     State.api := Some "mock"; State.editing := false;
     State.editFields := []; State.modalView := "split";
     State.currentRole := "analyst"; State.policy := ∅;
     State.authToken := None; State.authUser := None |}.

Definition w_loaded : World.t :=
  {| World.S := s_loaded; World.sessionStorage := ∅; World.calls := [] |}.

(** Every read is rejected. *)
Definition reads_offline : Reads.t :=
  {| Reads.dashboard := Rejected; Reads.documents := Rejected;
     Reads.matches := Rejected; Reads.anomalies := Rejected;
     Reads.vendors := Rejected; Reads.triage := Rejected;
     Reads.policy := Rejected |}.

(** The documents read is answered with status 500 and a JSON error body;
    the other reads are rejected. *)
Definition reads_500 : Reads.t :=
  {| Reads.dashboard := Rejected;
     Reads.documents :=
       Response 500
         (Some (Body.JObj {| Body.detail := Some "Internal Server Error";
                             Body.fields := None |}));
     Reads.matches := Rejected; Reads.anomalies := Rejected;
     Reads.vendors := Rejected; Reads.triage := Rejected;
     Reads.policy := Rejected |}.

(** An upload answered with [{success: false, error: ...}]. *)
Definition upload_refused : fetched Uploaded.t :=
  Response 200
    (Some (Body.JObj
             {| Body.detail := None;
                Body.fields :=
                  {| Uploaded.success := false;
                     Uploaded.error := Some "Unsupported file type";
                     Uploaded.document := None;
                     Uploaded.new_anomalies := None;
                     Uploaded.triage := None;
                     Uploaded.total_ms := None |} |})).

Definition li_widgets : LineItem.t :=
  {| LineItem.description := Some "Widgets";
     LineItem.quantity := Num 2; LineItem.unitPrice := Num 10;
     LineItem.total := Num 20 |}.

Definition doc_edited : Doc.t :=
  {| Doc.id := "d9"; Doc.type := "invoice"; Doc.triageLane := Some "REVIEW";
     Doc.currency := None; Doc.lineItems := Some [li_widgets] |}.

(** The quantity was set to 3 and the price to a text that does not
    parse. *)
Definition s_editing : State.t :=
  {| State.scr := "app"; State.tab := "documents";
     State.docs := [doc_edited];
     State.matches := []; State.anomalies := [];
     State.dash := {| Dash.aging := None; Dash.api_mode := None |};
     State.vendors := []; State.triageData := ∅; State.proc := None;
     State.sel := Some doc_edited; State.toast := None; State.ut := "auto";
     State.api := Some "mock"; State.editing := true;
     State.editFields :=
       [("vendor", "ACME"); ("li_0_desc", "Widgets");
        ("li_0_qty", "3"); ("li_0_price", "abc")];
     State.modalView := "split";
     State.currentRole := "analyst"; State.policy := ∅;
     State.authToken := None; State.authUser := None |}.

Definition d_one_bucket : Dash.t :=
  {| Dash.aging :=
       Some {| Aging.buckets := {[ "1_30" := 5000%Q ]};
               Aging.counts := {[ "1_30" := 2%Z ]} |};
     Dash.api_mode := Some "mock" |}.

End Sample.

(** * The rest of the front end

    The helpers, views and actions around the ones above. *)

(** ** Assignments to one field of [S] *)

Definition set_scr (x : string) (s : State.t) : State.t :=
  {| State.scr := x; State.tab := State.tab s; State.docs := State.docs s;
     State.matches := State.matches s;
     State.anomalies := State.anomalies s; State.dash := State.dash s;
     State.vendors := State.vendors s;
     State.triageData := State.triageData s; State.proc := State.proc s;
     State.sel := State.sel s; State.toast := State.toast s;
     State.ut := State.ut s; State.api := State.api s;
     State.editing := State.editing s;
     State.editFields := State.editFields s;
     State.modalView := State.modalView s;
     State.currentRole := State.currentRole s;
     State.policy := State.policy s; State.authToken := State.authToken s;
     State.authUser := State.authUser s |}.

Definition set_tab (x : string) (s : State.t) : State.t :=
  {| State.scr := State.scr s; State.tab := x; State.docs := State.docs s;
     State.matches := State.matches s;
     State.anomalies := State.anomalies s; State.dash := State.dash s;
     State.vendors := State.vendors s;
     State.triageData := State.triageData s; State.proc := State.proc s;
     State.sel := State.sel s; State.toast := State.toast s;
     State.ut := State.ut s; State.api := State.api s;
     State.editing := State.editing s;
     State.editFields := State.editFields s;
     State.modalView := State.modalView s;
     State.currentRole := State.currentRole s;
     State.policy := State.policy s; State.authToken := State.authToken s;
     State.authUser := State.authUser s |}.

Definition set_sel (x : option Doc.t) (s : State.t) : State.t :=
  {| State.scr := State.scr s; State.tab := State.tab s;
     State.docs := State.docs s; State.matches := State.matches s;
     State.anomalies := State.anomalies s; State.dash := State.dash s;
     State.vendors := State.vendors s;
     State.triageData := State.triageData s; State.proc := State.proc s;
     State.sel := x; State.toast := State.toast s; State.ut := State.ut s;
     State.api := State.api s; State.editing := State.editing s;
     State.editFields := State.editFields s;
     State.modalView := State.modalView s;
     State.currentRole := State.currentRole s;
     State.policy := State.policy s; State.authToken := State.authToken s;
     State.authUser := State.authUser s |}.

Definition set_ut (x : string) (s : State.t) : State.t :=
  {| State.scr := State.scr s; State.tab := State.tab s;
     State.docs := State.docs s; State.matches := State.matches s;
     State.anomalies := State.anomalies s; State.dash := State.dash s;
     State.vendors := State.vendors s;
     State.triageData := State.triageData s; State.proc := State.proc s;
     State.sel := State.sel s; State.toast := State.toast s;
     State.ut := x; State.api := State.api s;
     State.editing := State.editing s;
     State.editFields := State.editFields s;
     State.modalView := State.modalView s;
     State.currentRole := State.currentRole s;
     State.policy := State.policy s; State.authToken := State.authToken s;
     State.authUser := State.authUser s |}.

Definition set_editing (x : bool) (s : State.t) : State.t :=
  {| State.scr := State.scr s; State.tab := State.tab s;
     State.docs := State.docs s; State.matches := State.matches s;
     State.anomalies := State.anomalies s; State.dash := State.dash s;
     State.vendors := State.vendors s;
     State.triageData := State.triageData s; State.proc := State.proc s;
     State.sel := State.sel s; State.toast := State.toast s;
     State.ut := State.ut s; State.api := State.api s; State.editing := x;
     State.editFields := State.editFields s;
     State.modalView := State.modalView s;
     State.currentRole := State.currentRole s;
     State.policy := State.policy s; State.authToken := State.authToken s;
     State.authUser := State.authUser s |}.

Definition set_editFields (x : list (string * string)) (s : State.t) : State.t :=
  {| State.scr := State.scr s; State.tab := State.tab s;
     State.docs := State.docs s; State.matches := State.matches s;
     State.anomalies := State.anomalies s; State.dash := State.dash s;
     State.vendors := State.vendors s;
     State.triageData := State.triageData s; State.proc := State.proc s;
     State.sel := State.sel s; State.toast := State.toast s;
     State.ut := State.ut s; State.api := State.api s;
     State.editing := State.editing s; State.editFields := x;
     State.modalView := State.modalView s;
     State.currentRole := State.currentRole s;
     State.policy := State.policy s; State.authToken := State.authToken s;
     State.authUser := State.authUser s |}.


Definition set_currentRole (x : string) (s : State.t) : State.t :=
  {| State.scr := State.scr s; State.tab := State.tab s;
     State.docs := State.docs s; State.matches := State.matches s;
     State.anomalies := State.anomalies s; State.dash := State.dash s;
     State.vendors := State.vendors s;
     State.triageData := State.triageData s; State.proc := State.proc s;
     State.sel := State.sel s; State.toast := State.toast s;
     State.ut := State.ut s; State.api := State.api s;
     State.editing := State.editing s;
     State.editFields := State.editFields s;
     State.modalView := State.modalView s; State.currentRole := x;
     State.policy := State.policy s; State.authToken := State.authToken s;
     State.authUser := State.authUser s |}.

Definition set_authToken (x : option string) (s : State.t) : State.t :=
  {| State.scr := State.scr s; State.tab := State.tab s;
     State.docs := State.docs s; State.matches := State.matches s;
     State.anomalies := State.anomalies s; State.dash := State.dash s;
     State.vendors := State.vendors s;
     State.triageData := State.triageData s; State.proc := State.proc s;
     State.sel := State.sel s; State.toast := State.toast s;
     State.ut := State.ut s; State.api := State.api s;
     State.editing := State.editing s;
     State.editFields := State.editFields s;
     State.modalView := State.modalView s;
     State.currentRole := State.currentRole s;
     State.policy := State.policy s; State.authToken := x;
     State.authUser := State.authUser s |}.

Definition set_authUser (x : option User.t) (s : State.t) : State.t :=
  {| State.scr := State.scr s; State.tab := State.tab s;
     State.docs := State.docs s; State.matches := State.matches s;
     State.anomalies := State.anomalies s; State.dash := State.dash s;
     State.vendors := State.vendors s;
     State.triageData := State.triageData s; State.proc := State.proc s;
     State.sel := State.sel s; State.toast := State.toast s;
     State.ut := State.ut s; State.api := State.api s;
     State.editing := State.editing s;
     State.editFields := State.editFields s;
     State.modalView := State.modalView s;
     State.currentRole := State.currentRole s;
     State.policy := State.policy s; State.authToken := State.authToken s;
     State.authUser := x |}.

(** ** Helpers on values and objects *)

(** [v > 0] *)
Definition gt0 (v : value) : bool :=
  match to_number v with
  | Num q => Qlt_bool 0 q
  | _ => false
  end.

(** [o[k]=v] on an object kept as the list of its entries: the value of a
    present key is replaced in place, a new key goes to the end. *)
Fixpoint obj_set {A : Type} (k : string) (v : A) (o : list (string * A))
  : list (string * A) :=
  match o with
  | [] => [(k, v)]
  | (k', v') :: rest =>
      if String.eqb k' k then (k, v) :: rest
      else (k', v') :: obj_set k v rest
  end.

(** Truthiness of a scalar that may be missing. *)
Definition truthy_scalar (v : option scalar) : bool :=
  match v with
  | Some (SBool b) => b
  | Some (SNum q) => negb (Qeq_bool q 0)
  | Some (SStr s) => negb (bool_decide (s = ""))
  | None => false
  end.

(** ** Badges *)

Definition laneBg (l : option string) : string :=
  if bool_decide (l = Some "AUTO_APPROVE") then "bg-s"
  else if bool_decide (l = Some "BLOCK") then "bg-e"
  else if bool_decide (l = Some "REVIEW") then "bg-w"
  else "bg-d".

Definition laneLabel (l : option string) : string :=
  if bool_decide (l = Some "AUTO_APPROVE") then "✓ Approved"
  else if bool_decide (l = Some "BLOCK") then "⛔ Blocked"
  else if bool_decide (l = Some "REVIEW") then "🔍 Review"
  else "—".

Definition typBg (t : string) : string :=
  str_or (({[ "invoice" := "bg-i"; "purchase_order" := "bg-p";
              "contract" := "bg-s"; "credit_note" := "bg-w";
              "debit_note" := "bg-e"; "goods_receipt" := "bg-d" ]}
           : gmap string string) !! t) "bg-d".

(** ** PO Matching: the header and the status badge *)

Module MatchingHeader.
Record t : Type := {
  mt : nat;     (* auto-matched *)
  rv : nat;     (* need review *)
  tw : nat;     (* three-way *)
  nw : Z        (* two-way: S.matches.length-tw *)
}.
End MatchingHeader.

Definition matching_header (matches : list Match.t) : MatchingHeader.t :=
  let tw :=
    length (filter (fun m => Match.matchType m = "three_way") matches) in
  {| MatchingHeader.mt :=
       length (filter (fun m => Match.status m = "auto_matched") matches);
     MatchingHeader.rv :=
       length (filter (fun m => Match.status m = "review_needed") matches);
     MatchingHeader.tw := tw;
     MatchingHeader.nw := (Z.of_nat (length matches) - Z.of_nat tw)%Z |}.

(** [m.status==='auto_matched'?'matched':'review'] *)
Definition match_badge (m : Match.t) : string :=
  if bool_decide (Match.status m = "auto_matched") then "matched"
  else "review".

(** ** Dashboard: top vendors by spend *)

Module TopVendor.
Record t : Type := { vendor : option string; spend : Q }.
End TopVendor.

(** The width, in percent, of the bar of each vendor:
    [tv[0].spend>0?(v.spend/tv[0].spend)*100:0]. *)
Definition top_vendor_pcts (tv : list TopVendor.t) : list Q :=
  map (fun v =>
         match head tv with
         | Some v0 =>
             if Qlt_bool 0 (TopVendor.spend v0)
             then (TopVendor.spend v / TopVendor.spend v0 * 100)%Q
             else 0%Q
         | None => 0%Q
         end) tv.

(** ** The processing overlay *)

Definition processing_steps : list string :=
  ["Reading document"; "Extracting fields & line items";
   "Matching to purchase orders"; "Cross-referencing contracts";
   "Running anomaly detection"; "Computing confidence score"].

Module Overlay.
Record t : Type := {
  title : string;
  file : string;
  bar : option Z;         (* the width of the bulk progress bar, percent *)
  checked : list bool     (* per step: done or in progress *)
}.
End Overlay.

(** [processing()]; it reads [S.proc.fn] and throws without [S.proc]. *)
Definition processing (proc : option Proc.t) : completion Overlay.t :=
  let cs := match proc with Some p => Proc.st p | None => 0%nat end in
  match proc with
  | None => Throw
  | Some p =>
      let isBulk := (1 <? Proc.total p)%nat in
      Normal
        {| Overlay.title :=
             if isBulk
             then "Processing " ++ pretty (Proc.cur p) ++ " of "
                  ++ pretty (Proc.total p)
             else "Analyzing Document";
           Overlay.file := Proc.fn p;
           Overlay.bar :=
             if isBulk
             then Some (Math_round (inject_Z (Z.of_nat (Proc.cur p))
                                    / inject_Z (Z.of_nat (Proc.total p))
                                    * 100))
             else None;
           Overlay.checked :=
             imap (fun i _ => (i <=? cs)%nat) processing_steps |}
  end.

(** [${S.proc?processing():''}] in [app] *)
Definition app_overlay (s : State.t) : option (completion Overlay.t) :=
  match State.proc s with
  | Some p => Some (processing (Some p))
  | None => None
  end.

(** ** The application shell: the admin block and the tab buttons *)

(** The data-act values of the Admin block of the sidebar. *)
Definition admin_actions (s : State.t) : list string :=
  let ur := str_or (Some (user_role s)) "analyst" in
  let isAdmin := bool_decide (ur = "cfo") || bool_decide (ur = "vp") in
  if isAdmin then ["seed"; "export"; "import"; "reset"] else [].

(** The click handler of [data-tab] elements: [S.tab=e.dataset.tab;R()]. *)
Definition tab_click (t : string) (s : State.t) : State.t := set_tab t s.

(** ** Opening, editing and closing a document *)




(** The click handler of [data-cls] elements, for a click that it handles
    (on the backdrop itself or on the close button). *)
Definition close_click (s : State.t) : State.t :=
  set_editFields [] (set_editing false (set_sel None s)).






(** ** The status buttons of the modal and their handler *)



(** ** Actions that post and reload *)

(** [await api(path,{method:'POST'});await loadAll();toast(msg)], with
    [S.sel=null] after the post where the action has it. *)
Definition post_then_reload (path : string) (clear_sel : bool) (msg : string)
    (r : fetched unit) (rs : Reads.t) (w : World.t) : World.t :=
  let '(w, _) := await_api path r w in
  let w := if clear_sel then with_S (set_sel None) w else w in
  toast msg (loadAll rs w).








(** [resetAll()]: [confirmed] is the answer to the confirm dialog. *)
Definition resetAll (confirmed : bool) (r : fetched unit) (rs : Reads.t)
    (w : World.t) : World.t :=
  if confirmed then post_then_reload "/api/reset" false "Data cleared" r rs w
  else w.

Module Seed.
Record status : Type := { total_records : value }.
Record t : Type := {
  success : bool;
  message : option string;
  error : option string
}.
End Seed.

(** [seedDemo()]: [confirmed] is the answer to the confirm dialog, should
    it be shown. *)
Definition seedDemo (st : fetched Seed.status) (confirmed : bool)
    (reset : fetched unit) (seed : fetched Seed.t) (rs : Reads.t)
    (w : World.t) : World.t :=
  let '(w, st) := await_api "/api/data-status" st w in
  let has_records :=
    match st with
    | Some o => gt0 (Seed.total_records (Body.fields o))
    | None => false
    end in
  if has_records && negb confirmed then w
  else
    let w := if has_records then fst (await_api "/api/reset" reset w)
             else w in
    let '(w, r) := await_api "/api/seed-demo" seed w in
    match r with
    | Some o =>
        let b := Body.fields o in
        if Seed.success b
        then toast (str_or (Seed.message b) "Demo data seeded") (loadAll rs w)
        else toast (str_or (Seed.error b) "Seed failed") w
    | None => toast "Seed failed" w
    end.

(** ** Uploading several files *)

(** A file handed to an upload: its name, the number of firings of the
    progress timer while its request is pending, and the outcome of the
    request. *)
Definition upload_job : Type := (string * nat * fetched Uploaded.t)%type.

(** [r&&r.success] *)
Definition upload_ok (r : fetched Uploaded.t) : bool :=
  match api_value r with
  | Some o => Uploaded.success (Body.fields o)
  | None => false
  end.

Module Bulk.
Record t : Type := { w : World.t; ok : nat; fail : nat; i : nat }.
End Bulk.

(** One turn of the loop of [uploadBulk]. *)
Definition bulk_step (total : nat) (a : Bulk.t) (f : upload_job) : Bulk.t :=
  let '(fname, ticks, r) := f in
  let w :=
    with_S (set_proc (Some {| Proc.fn := fname; Proc.st := Nat.min ticks 5;
                              Proc.cur := Bulk.i a + 1;
                              Proc.total := total |})) (Bulk.w a) in
  let '(w, r) := await_api "/api/upload" r w in
  let success :=
    match r with
    | Some o => Uploaded.success (Body.fields o)
    | None => false
    end in
  if success
  then {| Bulk.w := w; Bulk.ok := Bulk.ok a + 1; Bulk.fail := Bulk.fail a;
          Bulk.i := Bulk.i a + 1 |}
  else {| Bulk.w := w; Bulk.ok := Bulk.ok a; Bulk.fail := Bulk.fail a + 1;
          Bulk.i := Bulk.i a + 1 |}.

Definition bulk_msg (ok fail total : nat) : string :=
  "Bulk upload: " ++ pretty ok ++ " succeeded"
  ++ (if (fail =? 0)%nat then "" else ", " ++ pretty fail ++ " failed")
  ++ " out of " ++ pretty total ++ " files".

Definition uploadBulk (files : list upload_job) (rs : Reads.t) (w : World.t)
  : World.t :=
  let total := length files in
  let a := fold_left (bulk_step total) files
             {| Bulk.w := w; Bulk.ok := 0; Bulk.fail := 0; Bulk.i := 0 |} in
  let w := with_S (set_proc None) (Bulk.w a) in
  let w := loadAll rs w in
  toast (bulk_msg (Bulk.ok a) (Bulk.fail a) total) w.

(** The handler of the file input and of a drop on the upload zone:
    [if(f.length>1)uploadBulk(f);else if(f.length===1)uploadFile(f[0])]. *)
Definition files_chosen `{Host} (files : list upload_job) (rs : Reads.t)
    (w : World.t) : World.t * completion unit :=
  match files with
  | [] => (w, Normal tt)
  | [(fname, ticks, r)] => uploadFile fname ticks r rs w
  | _ => (uploadBulk files rs w, Normal tt)
  end.

(** ** The AP Policy screen: saving and toggling *)

Module PolicyInput.
Record t : Type := {
  key : string;          (* data-policy *)
  is_select : bool;      (* inp.tagName==='SELECT' *)
  value : string         (* inp.value *)
}.
End PolicyInput.

(** The object [updates] of the save-policy handler. [parseFloat] gives a
    number or [NaN]; an input whose text gives [NaN] is left out. *)
Definition policy_updates `{Host} (inputs : list PolicyInput.t)
  : list (string * scalar) :=
  fold_left
    (fun u inp =>
       if PolicyInput.is_select inp
       then obj_set (PolicyInput.key inp) (SStr (PolicyInput.value inp)) u
       else match parseFloat (PolicyInput.value inp) with
            | Num q => obj_set (PolicyInput.key inp) (SNum q) u
            | _ => u
            end)
    inputs [].

(** The save-policy handler: the body it posts and the world after it. *)
Definition save_policy `{Host} (inputs : list PolicyInput.t)
    (r : fetched unit) (rs : Reads.t) (w : World.t)
  : list (string * scalar) * World.t :=
  (policy_updates inputs,
   post_then_reload "/api/policy" false "Policy saved" r rs w).

(** The text of the toggle button of [key] in [settingsTab]:
    [v?'ON':'OFF'] with [v=p[key]]. *)
Definition toggle_label (s : State.t) (key : string) : string :=
  if truthy_scalar (State.policy s !! key) then "ON" else "OFF".

(** The click handler of [data-policy-toggle] elements: the value it posts
    for [k] and the world after it. *)
Definition policy_toggle (k : string) (r : fetched unit) (rs : Reads.t)
    (w : World.t) : bool * World.t :=
  let nv := negb (truthy_scalar (State.policy (World.S w) !! k)) in
  (nv,
   post_then_reload "/api/policy" false
     (k ++ ": " ++ (if nv then "ON" else "OFF")) r rs w).

(** The change handler of the role select, with the value and the text of
    the chosen option. *)
Definition role_change (value text : string) (rs : Reads.t) (w : World.t)
  : World.t :=
  toast ("Switched to " ++ text)
        (loadAll rs (with_S (set_currentRole value) w)).

(** ** Signing in and out *)

(** What the host provides for the sign-in code. *)
Class Text : Type := {
  (** [s.trim()] *)
  trim : string -> string;
  (** [s.length], in UTF-16 code units *)
  js_length : string -> nat;
  (** [JSON.stringify(u)] of a user record *)
  JSON_stringify_user : User.t -> string;
  (** [JSON.parse(s)] read as a user record: it throws, gives [null], or
      gives an object *)
  JSON_parse_user : string -> completion (option User.t)
}.

(** The sign-in fields of [S], kept beside the rest of it. *)
Module Auth.
Record t : Type := {
  world : World.t;
  authError : option string;
  authLoading : bool
}.
End Auth.

(** The inputs of the sign-in form; [None] where the page has no such
    element. *)
Module AuthForm.
Record t : Type := {
  email : option string;
  password : option string;
  name : option string;
  role : option string
}.
End AuthForm.

Module AuthBody.
Record t : Type := { token : option string; user : option User.t }.
End AuthBody.

Definition auth_fail (msg : string) (w : World.t) : Auth.t :=
  {| Auth.world := w; Auth.authError := Some msg; Auth.authLoading := false |}.

(** [doAuth(mode)]. An undefined role of the user is kept in
    [S.currentRole] as the empty string, which every reader of that field
    treats alike. *)
Definition doAuth `{Text} (mode : string) (f : AuthForm.t)
    (r : fetched AuthBody.t) (rs : Reads.t) (a : Auth.t) : Auth.t :=
  let email := trim (default "" (AuthForm.email f)) in
  let password := default "" (AuthForm.password f) in
  let name := trim (default "" (AuthForm.name f)) in
  if bool_decide (email = "") || negb (occurs "@" email) then
    {| Auth.world := Auth.world a;
       Auth.authError := Some "Please enter a valid email address";
       Auth.authLoading := Auth.authLoading a |}
  else if (js_length password <? 6)%nat then
    {| Auth.world := Auth.world a;
       Auth.authError := Some "Password must be at least 6 characters";
       Auth.authLoading := Auth.authLoading a |}
  else if bool_decide (mode = "register") && bool_decide (name = "") then
    {| Auth.world := Auth.world a;
       Auth.authError := Some "Please enter your name";
       Auth.authLoading := Auth.authLoading a |}
  else
    let endpoint :=
      if bool_decide (mode = "register") then "/api/auth/register"
      else "/api/auth/login" in
    let w := log_call endpoint (Auth.world a) in
    match r with
    | Rejected => auth_fail "Network error" w
    | Response status json =>
        match json with
        | None => auth_fail "Network error" w
        | Some Body.JNull => auth_fail "Network error" w
        | Some (Body.JObj o) =>
            if negb (ok status)
            then auth_fail (str_or (Body.detail o) "Authentication failed") w
            else
              let b := Body.fields o in
              let w :=
                with_S (fun s => set_authUser (AuthBody.user b)
                                   (set_authToken (AuthBody.token b) s)) w in
              match AuthBody.user b with
              | None => auth_fail "Network error" w
              | Some u =>
                  let w :=
                    with_S (set_currentRole (default "" (User.role u))) w in
                  let w :=
                    {| World.S := set_scr "app" (World.S w);
                       World.sessionStorage :=
                         <["al_user" := JSON_stringify_user u]>
                           (<["al_token" := to_string (AuthBody.token b)]>
                              (World.sessionStorage w));
                       World.calls := World.calls w |} in
                  {| Auth.world :=
                       toast ("Welcome, " ++ to_string (User.name u) ++ "!")
                             (loadAll rs w);
                     Auth.authError := None;
                     Auth.authLoading := false |}
              end
        end
    end.


(** The start of the script: the session is restored from the storage. *)
Definition restore `{Text} (w : World.t) : World.t :=
  match World.sessionStorage w !! "al_token",
        World.sessionStorage w !! "al_user" with
  | Some (String c t), Some (String d u) =>
      let w := with_S (set_authToken (Some (String c t))) w in
      match JSON_parse_user (String d u) with
      | Throw => w
      | Normal None => with_S (set_authUser None) w
      | Normal (Some usr) =>
          with_S (fun s => set_currentRole (str_or (User.role usr) "analyst")
                             (set_authUser (Some usr) s)) w
      end
  | _, _ => w
  end.

(** The state object as the script creates it. *)
Definition S_initial : State.t :=
  {| State.scr := "landing"; State.tab := "dashboard"; State.docs := [];
     State.matches := []; State.anomalies := [];
     State.dash := {| Dash.aging := None; Dash.api_mode := None |};
     State.vendors := []; State.triageData := ∅; State.proc := None;
     State.sel := None; State.toast := None; State.ut := "auto";
     State.api := Some "unknown"; State.editing := false;
     State.editFields := []; State.modalView := "split";
     State.currentRole := "analyst"; State.policy := ∅;
     State.authToken := None; State.authUser := None |}.

(** The script from its first line to the initial render: the state is
    created, the session restored, and with a token the application is
    entered and loaded. *)
Definition boot `{Text} (storage : gmap string string) (rs : Reads.t)
  : World.t :=
  let w := restore {| World.S := S_initial; World.sessionStorage := storage;
                      World.calls := [] |} in
  match State.authToken (World.S w) with
  | Some (String _ _) => loadAll rs (with_S (set_scr "app") w)
  | _ => w
  end.

(** The click handler of [data-go] elements on the landing page. *)
Definition go_click (rs : Reads.t) (w : World.t) : World.t :=
  match State.authToken (World.S w) with
  | Some (String _ _) => loadAll rs (with_S (set_scr "app") w)
  | _ => with_S (set_scr "login") w
  end.

(** The fields of [S] that neither [api] nor [loadAll] writes, besides the
    collections. *)
Definition ui_fields (s : State.t) :=
  (State.tab s, State.proc s, State.sel s, State.ut s, State.editing s,
   State.editFields s, State.modalView s, State.currentRole s).

(** The number of posts to the upload endpoint among requests. *)
Definition upload_posts (calls : list string) : nat :=
  length (filter (fun p => p = "/api/upload") calls).

(** [o[k]] on an object kept as the list of its entries. *)
Fixpoint obj_get {A : Type} (o : list (string * A)) (k : string) : option A :=
  match o with
  | [] => None
  | (k', v) :: rest => if String.eqb k' k then Some v else obj_get rest k
  end.

(** What the save-policy handler writes for one input, if anything. *)
Definition policy_entry `{Host} (inp : PolicyInput.t) : option scalar :=
  if PolicyInput.is_select inp then Some (SStr (PolicyInput.value inp))
  else match parseFloat (PolicyInput.value inp) with
       | Num q => Some (SNum q)
       | _ => None
       end.

(** ** The session

    What a 401 answer, a sign-in and [logout] write: the token and the user
    of [S], the screen, and the session storage. *)
Definition session (w : World.t) :=
  (State.authToken (World.S w), State.authUser (World.S w),
   State.scr (World.S w), World.sessionStorage w).

(** The session after it was dropped. *)
Definition expired
    (s : option string * option User.t * string * gmap string string) :=
  let '(_, _, _, storage) := s in
  (@None string, @None User.t, "login",
   delete "al_user" (delete "al_token" storage)).

(** [r.status===401] *)
Definition unauthorized {T} (r : fetched T) : bool :=
  match r with
  | Rejected => false
  | Response status _ => (status =? 401)%nat
  end.

Definition reads_unauthorized (rs : Reads.t) : bool :=
  unauthorized (Reads.dashboard rs) || unauthorized (Reads.documents rs)
  || unauthorized (Reads.matches rs) || unauthorized (Reads.anomalies rs)
  || unauthorized (Reads.vendors rs) || unauthorized (Reads.triage rs)
  || unauthorized (Reads.policy rs).

(** [st&&st.total_records>0] and [r&&r.success] in [seedDemo]. *)
Definition has_records (st : fetched Seed.status) : bool :=
  match api_value st with
  | Some o => gt0 (Seed.total_records (Body.fields o))
  | None => false
  end.

Definition seeded (seed : fetched Seed.t) : bool :=
  match api_value seed with
  | Some o => Seed.success (Body.fields o)
  | None => false
  end.

(** ** A text host for the examples

    Over ASCII: the only white space is the space character, a user is
    written without escaping, and the parser reads back [null] and the
    empty object only. *)
Module PlainText.

Fixpoint trim_left (s : string) : string :=
  match s with
  | String c r => if Ascii.eqb c " " then trim_left r else s
  | EmptyString => EmptyString
  end.

Definition reverse (s : string) : string :=
  string_of_list_ascii (rev (list_ascii_of_string s)).

Definition strip (s : string) : string :=
  reverse (trim_left (reverse (trim_left s))).

Definition dq : string := String (ascii_of_nat 34) EmptyString.

Definition field (k : string) (v : option string) : list string :=
  match v with
  | Some x => [dq ++ k ++ dq ++ ":" ++ dq ++ x ++ dq]
  | None => []
  end.

Definition stringify (u : User.t) : string :=
  "{" ++ String.concat ","
           (field "name" (User.name u) ++ field "email" (User.email u)
            ++ field "role" (User.role u))%list
  ++ "}".

Definition parse (s : string) : completion (option User.t) :=
  if bool_decide (s = "null") then Normal None
  else if bool_decide (s = "{}")
  then Normal (Some {| User.name := None; User.email := None;
                       User.role := None |})
  else Throw.

Definition text : Text :=
  {| trim := strip; js_length := String.length;
     JSON_stringify_user := stringify; JSON_parse_user := parse |}.

End PlainText.

(** * Properties *)


(** ** Numbers *)

Lemma Qlt_bool_iff (x y : Q) : Qlt_bool x y = true <-> (x < y)%Q.
Proof.
  unfold Qlt_bool. rewrite negb_true_iff.
  split.
  - intros Hb. apply Qnot_le_lt. intros Hle.
    apply Qle_bool_iff in Hle. congruence.
  - intros Hlt. destruct (Qle_bool y x) eqn:Hb; [|reflexivity].
    apply Qle_bool_iff in Hb. exfalso. exact (Qlt_not_le _ _ Hlt Hb).
Qed.

Lemma Qlt_bool_false (x y : Q) : Qlt_bool x y = false <-> (y <= x)%Q.
Proof.
  unfold Qlt_bool. rewrite negb_false_iff. apply Qle_bool_iff.
Qed.

(** [Math_round x] is the integer within one half of [x], the upper one at
    a tie. *)
Lemma Math_round_nearest (x : Q) :
  (inject_Z (Math_round x) - (1 # 2) <= x)%Q
  /\ (x < inject_Z (Math_round x) + (1 # 2))%Q.
Proof.
  unfold Math_round. split.
  - pose proof (Qfloor_le (x + (1 # 2))) as Hle.
    apply (Qplus_le_l _ _ (1 # 2)). ring_simplify.
    ring_simplify in Hle. exact Hle.
  - pose proof (Qlt_floor (x + (1 # 2))) as Hlt.
    rewrite inject_Z_plus in Hlt.
    apply (Qplus_lt_l _ _ (1 # 2)).
    eapply Qlt_le_trans; [exact Hlt|].
    ring_simplify. apply Qle_refl.
Qed.

Lemma Math_round_comp (x y : Q) : (x == y)%Q -> Math_round x = Math_round y.
Proof.
  intros Heq. unfold Math_round. apply Qfloor_comp. rewrite Heq. reflexivity.
Qed.

(** ** PO Matching: the fulfilled percentage *)



(** ** Anomalies view *)

Lemma ge0_Num (q : Q) : ge0 (Num q) = true <-> (0 <= q)%Q.
Proof. unfold ge0. cbn. apply Qle_bool_iff. Qed.

Lemma ge0_Num_false (q : Q) : ge0 (Num q) = false <-> (q < 0)%Q.
Proof.
  rewrite <- not_true_iff_false, ge0_Num. split.
  - apply Qnot_le_lt.
  - intros Hlt Hle. exact (Qlt_not_le _ _ Hlt Hle).
Qed.

Lemma open_card_a `{Host} (a : Anomaly.t) : OpenCard.a (open_card a) = a.
Proof. unfold open_card. destruct (ge0 _); reflexivity. Qed.

(** C2. A card of the open list stands for an anomaly of the state whose
    status is open. If the stored amount at risk is a number [q]: for
    [0 <= q] the card shows the formatted amount without a label, for
    [q < 0] it shows the formatted absolute value followed by ' savings'.
    The card holds the stored record as it is, and the stored signed amount
    is the shown amount, negated when the label is present. *)
Theorem open_card_amount `{Host} (anomalies : list Anomaly.t)
    (c : OpenCard.t) (q : Q) :
  c ∈ AnomaliesView.open_cards (anomaliesTab anomalies) ->
  Anomaly.amount_at_risk (OpenCard.a c) = Num q ->
  let cur := Some (str_or (Anomaly.currency (OpenCard.a c)) "USD") in
  (OpenCard.a c ∈ anomalies /\ Anomaly.status (OpenCard.a c) = "open")
  /\ ((0 <= q)%Q ->
      OpenCard.text c = fmtx (Num q) cur /\ OpenCard.savings c = false)
  /\ ((q < 0)%Q ->
      OpenCard.text c = fmtx (Num (Qabs q)) cur ++ " savings"
      /\ OpenCard.savings c = true)
  /\ ((if OpenCard.savings c then - or0 (OpenCard.shown c)
       else or0 (OpenCard.shown c)) == q)%Q.
Proof.
  cbn [anomaliesTab AnomaliesView.open_cards]. intros Hin.
  apply list_elem_of_fmap in Hin as (a & -> & Ha).
  apply list_elem_of_filter in Ha as [Hopen Ha].
  rewrite open_card_a. intros Hq. cbn zeta.
  split; [split; assumption|].
  unfold open_card. rewrite Hq.
  destruct (ge0 (Num q)) eqn:Hge; cbn [OpenCard.text OpenCard.savings
                                         OpenCard.shown].
  - apply ge0_Num in Hge. split; [|split].
    + intros _. split; reflexivity.
    + intros Hlt. exfalso. exact (Qlt_not_le _ _ Hlt Hge).
    + cbn. reflexivity.
  - apply ge0_Num_false in Hge. split; [|split].
    + intros Hle. exfalso. exact (Qlt_not_le _ _ Hge Hle).
    + intros _. split; reflexivity.
    + cbn. rewrite Qabs_neg by (apply Qlt_le_weak; exact Hge).
      apply Qopp_involutive.
Qed.

Lemma open_card_amount_witness :
  OpenCard.text (@open_card Reference.host Sample.a_overcharge) = "$1,234.56"
  /\ OpenCard.text (@open_card Reference.host Sample.a_discount)
     = "€40.00 savings".
Proof.
  pose (l := [Sample.a_overcharge; Sample.a_resolved; Sample.a_discount]).
  split.
  - destruct (@open_card_amount Reference.host l
                (@open_card Reference.host Sample.a_overcharge) (123456 # 100))
      as (_ & Hpos & _ & _).
    + apply list_elem_of_here.
    + reflexivity.
    + destruct Hpos as [Htext _]; [discriminate|].
      rewrite Htext. vm_compute. reflexivity.
  - destruct (@open_card_amount Reference.host l
                (@open_card Reference.host Sample.a_discount) (-(40 # 1)))
      as (_ & _ & Hneg & _).
    + apply list_elem_of_further, list_elem_of_here.
    + reflexivity.
    + destruct Hneg as [Htext _]; [reflexivity|].
      rewrite Htext. vm_compute. reflexivity.
Defined.

(** The fold of [at_risk] from any start value. *)
Lemma at_risk_fold (l : list Anomaly.t) (s : Q) :
  (fold_left (fun s a => s + or0 (Anomaly.amount_at_risk a)) l s
   == s + fold_left (fun s a => s + or0 (Anomaly.amount_at_risk a)) l 0)%Q.
Proof.
  revert s. induction l as [|a l IH]; intros s; cbn [fold_left].
  - ring.
  - rewrite IH. rewrite (IH (0 + _)%Q). ring.
Qed.

Lemma at_risk_open_total (l : list Anomaly.t) :
  (at_risk (filter (fun a => Anomaly.status a = "open") l) == open_total l)%Q.
Proof.
  induction l as [|a l IH]; [reflexivity|].
  cbn [open_total]. rewrite filter_cons.
  destruct (decide (Anomaly.status a = "open")) as [Ho|Ho].
  - rewrite (bool_decide_eq_true_2 _ Ho). unfold at_risk in *.
    cbn [fold_left]. rewrite at_risk_fold, IH. ring.
  - rewrite (bool_decide_eq_false_2 _ Ho). exact IH.
Qed.

(** C3. The header of the Anomalies view shows [fmt] of a total that is the
    signed sum of [amount_at_risk] (a missing value counting for zero) over
    the anomalies whose status is open; an anomaly with any other status can
    be removed from the state without changing the total. *)
Theorem at_risk_total `{Host} (anomalies : list Anomaly.t) :
  let v := anomaliesTab anomalies in
  AnomaliesView.risk_text v = fmt (Num (AnomaliesView.risk v)) None
  /\ (AnomaliesView.risk v == open_total anomalies)%Q
  /\ (forall l1 a l2,
        anomalies = (l1 ++ a :: l2)%list -> Anomaly.status a <> "open" ->
        AnomaliesView.risk v
        = AnomaliesView.risk (anomaliesTab (l1 ++ l2)%list)).
Proof.
  cbn [anomaliesTab AnomaliesView.risk AnomaliesView.risk_text].
  split; [reflexivity|]. split; [apply at_risk_open_total|].
  intros l1 a l2 -> Hst.
  rewrite !filter_app, filter_cons_False by exact Hst. reflexivity.
Qed.

Lemma at_risk_total_witness :
  AnomaliesView.risk
    (@anomaliesTab Reference.host
       [Sample.a_overcharge; Sample.a_resolved; Sample.a_discount])
  = AnomaliesView.risk
      (@anomaliesTab Reference.host [Sample.a_overcharge; Sample.a_discount]).
Proof.
  destruct (@at_risk_total Reference.host
              [Sample.a_overcharge; Sample.a_resolved; Sample.a_discount])
    as (_ & _ & Hframe).
  apply (Hframe [Sample.a_overcharge] Sample.a_resolved [Sample.a_discount]).
  - reflexivity.
  - discriminate.
Defined.

(** ** Dashboard: the AR aging chart *)

Lemma aging_bar_fields `{Host} (ag : Aging.t) (mx : Q) (b : Bucket.t) :
  Bar.k (aging_bar ag mx b) = Bucket.k b
  /\ Bar.a (aging_bar ag mx b) = default 0%Q (Aging.buckets ag !! Bucket.k b)
  /\ Bar.a_text (aging_bar ag mx b)
     = fmt (Num (Bar.a (aging_bar ag mx b))) None.
Proof. repeat split. Qed.

(** C4. The aging chart has exactly five bars, keyed current, 1_30, 31_60,
    61_90 and 90_plus in that order, whatever keys the served buckets hold.
    Each bar shows the served amount of its key; a key without data gives a
    bar of amount 0, and without any aging data all five bars show 0. *)
Theorem aging_chart_buckets `{Host} (d : Dash.t) :
  map Bar.k (aging_chart d) = ["current"; "1_30"; "31_60"; "61_90"; "90_plus"]
  /\ (forall b, b ∈ aging_chart d ->
        Bar.a b = default 0%Q (Aging.buckets (aging_or_empty d) !! Bar.k b)
        /\ Bar.a_text b = fmt (Num (Bar.a b)) None)
  /\ (forall k, k ∈ ["current"; "1_30"; "31_60"; "61_90"; "90_plus"] ->
        Aging.buckets (aging_or_empty d) !! k = None ->
        exists b, b ∈ aging_chart d /\ Bar.k b = k /\ Bar.a b = 0%Q)
  /\ (Dash.aging d = None -> map Bar.a (aging_chart d) = [0; 0; 0; 0; 0]%Q).
Proof.
  split; [reflexivity|]. split; [|split].
  - intros b Hb. unfold aging_chart in Hb.
    apply list_elem_of_fmap in Hb as (bu & -> & _).
    destruct (aging_bar_fields (aging_or_empty d)
                (chart_max (aging_or_empty d)) bu) as (Hk & Ha & Ht).
    rewrite Hk. split; assumption.
  - intros k Hk Hnone.
    assert (Hbu : exists bu, bu ∈ bk /\ Bucket.k bu = k).
    { change (k ∈ map Bucket.k bk) in Hk.
      apply list_elem_of_fmap in Hk as (bu & -> & Hbu).
      exists bu. split; [exact Hbu|reflexivity]. }
    destruct Hbu as (bu & Hbu & <-).
    exists (aging_bar (aging_or_empty d) (chart_max (aging_or_empty d)) bu).
    split; [|split].
    + unfold aging_chart. apply list_elem_of_fmap. exists bu. split; auto.
    + reflexivity.
    + cbn [aging_bar Bar.a]. rewrite Hnone. reflexivity.
  - intros Hnone. unfold aging_chart, aging_or_empty. rewrite Hnone.
    reflexivity.
Qed.

Lemma aging_chart_buckets_witness :
  map Bar.a (@aging_chart Reference.host Sample.d_one_bucket)
  = [0; 5000; 0; 0; 0]%Q
  /\ exists b, b ∈ @aging_chart Reference.host Sample.d_one_bucket
               /\ Bar.k b = "90_plus" /\ Bar.a b = 0%Q.
Proof.
  split; [vm_compute; reflexivity|].
  destruct (@aging_chart_buckets Reference.host Sample.d_one_bucket)
    as (_ & _ & Hempty & _).
  apply (Hempty "90_plus").
  - repeat first [apply list_elem_of_here | apply list_elem_of_further].
  - vm_compute. reflexivity.
Defined.

(** ** Triage view *)





(** ** Triage override *)









(** ** The AP Policy screen *)

Lemma role_allowed_iff (r : string) :
  r ∈ ["cfo"; "vp"; "manager"] <-> r = "manager" \/ r = "vp" \/ r = "cfo".
Proof.
  rewrite !elem_of_cons, elem_of_nil. tauto.
Qed.

Lemma nav_settings_iff (s : State.t) :
  "settings" ∈ nav_tabs s <->
  user_role s = "manager" \/ user_role s = "vp" \/ user_role s = "cfo".
Proof.
  unfold nav_tabs.
  assert (Hur : forall x, x <> "" -> x <> "analyst" ->
            (str_or (Some (user_role s)) "analyst" = x <-> user_role s = x)).
  { intros x Hx Hy. destruct (user_role s) as [|c r]; cbn [str_or].
    - split; intros Heq; congruence.
    - reflexivity. }
  generalize dependent (str_or (Some (user_role s)) "analyst").
  intros ur Hur.
  pose proof (Hur "cfo") as Hcfo.
  pose proof (Hur "vp") as Hvp.
  pose proof (Hur "manager") as Hmgr.
  rewrite <- Hcfo, <- Hvp, <- Hmgr by discriminate.
  clear Hur Hcfo Hvp Hmgr.
  set (tabs := ["dashboard"; "triage"; "documents"; "anomalies"; "matching";
                "vendors"; "contracts"; "upload"]).
  assert (Hno : ~ "settings" ∈ tabs).
  { assert (Hb : bool_decide ("settings" ∈ tabs) = false)
      by (vm_compute; reflexivity).
    apply bool_decide_eq_false in Hb. exact Hb. }
  assert (Hyes : "settings" ∈ (tabs ++ ["settings"])%list).
  { apply elem_of_app. right. apply list_elem_of_here. }
  destruct (decide (ur = "cfo")) as [Hc|Hc];
    [rewrite (bool_decide_eq_true_2 _ Hc)
    |rewrite (bool_decide_eq_false_2 _ Hc)];
  (destruct (decide (ur = "vp")) as [Hv|Hv];
    [rewrite (bool_decide_eq_true_2 _ Hv)
    |rewrite (bool_decide_eq_false_2 _ Hv)]);
  (destruct (decide (ur = "manager")) as [Hm|Hm];
    [rewrite (bool_decide_eq_true_2 _ Hm)
    |rewrite (bool_decide_eq_false_2 _ Hm)]);
  cbn [orb]; tauto.
Qed.

(** C9. The AP Policy screen is what the page shows only if the role of the
    current user is manager, vp or cfo: the main pane is that screen exactly
    when the settings tab is selected under such a role; under any other
    role the settings tab shows the access-restricted message; and the
    navigation holds the AP Policy entry exactly under such a role. *)
Theorem settings_gate (s : State.t) :
  let allowed :=
    user_role s = "manager" \/ user_role s = "vp" \/ user_role s = "cfo" in
  (forall nav, R s = App nav VSettings -> allowed)
  /\ (main_view s = VSettings <-> State.tab s = "settings" /\ allowed)
  /\ (State.tab s = "settings" -> ~ allowed ->
      main_view s = VAccessRestricted)
  /\ ("settings" ∈ nav_tabs s <-> allowed).
Proof.
  cbn zeta.
  assert (Hmain : main_view s = VSettings <->
            State.tab s = "settings"
            /\ (user_role s = "manager" \/ user_role s = "vp"
                \/ user_role s = "cfo")).
  { unfold main_view. generalize (State.tab s) as tab. intros tab.
    destruct (decide (tab = "settings")) as [->|Hne].
    - repeat (rewrite bool_decide_eq_false_2 by discriminate).
      rewrite (bool_decide_eq_true_2 ("settings" = "settings"))
        by reflexivity.
      case_bool_decide as Hr; rewrite role_allowed_iff in Hr.
      + tauto.
      + split; [discriminate|tauto].
    - repeat case_bool_decide; try contradiction;
        (split; [discriminate|tauto]). }
  split; [|split; [exact Hmain|split; [|apply nav_settings_iff]]].
  - intros nav. unfold R.
    repeat case_bool_decide; try discriminate.
    intros [= _ Hv]. apply Hmain in Hv. tauto.
  - intros Htab Hno. unfold main_view. rewrite Htab.
    repeat (rewrite bool_decide_eq_false_2 by discriminate).
    rewrite (bool_decide_eq_true_2 ("settings" = "settings")) by reflexivity.
    rewrite bool_decide_eq_false_2; [reflexivity|].
    rewrite role_allowed_iff. exact Hno.
Qed.

Lemma settings_gate_witness :
  (exists tab role,
     main_view
       {| State.scr := "app"; State.tab := tab; State.docs := [];
          State.matches := []; State.anomalies := [];
          State.dash := {| Dash.aging := None; Dash.api_mode := None |};
          State.vendors := []; State.triageData := ∅; State.proc := None;
          State.sel := None; State.toast := None; State.ut := "auto";
          State.api := Some "unknown"; State.editing := false;
          State.editFields := []; State.modalView := "split";
          State.currentRole := role; State.policy := ∅;
          State.authToken := None; State.authUser := None |}
     = VAccessRestricted).
Proof.
  exists "settings", "analyst".
  match goal with
  | |- main_view ?s = _ =>
      destruct (settings_gate s) as (_ & _ & Hdenied & _)
  end.
  apply Hdenied.
  - reflexivity.
  - cbn. intros [H|[H|H]]; discriminate H.
Defined.

(** ** The API helper and the reload *)

Lemma api_returns {T} (p : string) (r : fetched T) (w : World.t) :
  exists w', api p r w = (w', Normal (api_value r))
             /\ World.calls w' = (World.calls w ++ [p])%list
             /\ collections (World.S w') = collections (World.S w)
             /\ State.proc (World.S w') = State.proc (World.S w).
Proof.
  unfold api, api_try, api_value.
  destruct r as [|status json].
  - eexists. split; [reflexivity|]. repeat split.
  - destruct (status =? 401)%nat.
    + eexists. split; [reflexivity|]. repeat split.
    + destruct json as [[|o]|];
        destruct (negb (ok status) && (status =? 403)%nat);
        eexists; (split; [reflexivity|]); repeat split.
Qed.

Lemma await_api_spec {T} (p : string) (r : fetched T) (w : World.t) :
  snd (await_api p r w) = api_value r
  /\ World.calls (fst (await_api p r w)) = (World.calls w ++ [p])%list
  /\ collections (World.S (fst (await_api p r w))) = collections (World.S w)
  /\ State.proc (World.S (fst (await_api p r w))) = State.proc (World.S w).
Proof.
  unfold await_api.
  destruct (api_returns p r w) as (w' & -> & Hc & Hs & Hp).
  cbn [fst snd]. repeat split; assumption.
Qed.

(** [loadAll] is the seven guarded assignments on the values of the reads,
    after seven calls that leave the collections alone. *)
Lemma loadAll_unfold (rs : Reads.t) (w : World.t) :
  exists w7,
    loadAll rs w
    = with_S (fun s => assign_reads s
                         (api_value (Reads.dashboard rs))
                         (api_value (Reads.documents rs))
                         (api_value (Reads.matches rs))
                         (api_value (Reads.anomalies rs))
                         (api_value (Reads.vendors rs))
                         (api_value (Reads.triage rs))
                         (api_value (Reads.policy rs))) w7
    /\ World.calls w7 = (World.calls w ++ reload_paths)%list
    /\ collections (World.S w7) = collections (World.S w)
    /\ State.proc (World.S w7) = State.proc (World.S w).
Proof.
  unfold loadAll.
  destruct (await_api_spec "/api/dashboard" (Reads.dashboard rs) w)
    as (Hv1 & Hc1 & Hs1 & Hp1).
  destruct (await_api "/api/dashboard" (Reads.dashboard rs) w) as [w1 d].
  destruct (await_api_spec "/api/documents" (Reads.documents rs) w1)
    as (Hv2 & Hc2 & Hs2 & Hp2).
  destruct (await_api "/api/documents" (Reads.documents rs) w1) as [w2 dc].
  destruct (await_api_spec "/api/matches" (Reads.matches rs) w2)
    as (Hv3 & Hc3 & Hs3 & Hp3).
  destruct (await_api "/api/matches" (Reads.matches rs) w2) as [w3 m].
  destruct (await_api_spec "/api/anomalies" (Reads.anomalies rs) w3)
    as (Hv4 & Hc4 & Hs4 & Hp4).
  destruct (await_api "/api/anomalies" (Reads.anomalies rs) w3) as [w4 an].
  destruct (await_api_spec "/api/vendors" (Reads.vendors rs) w4)
    as (Hv5 & Hc5 & Hs5 & Hp5).
  destruct (await_api "/api/vendors" (Reads.vendors rs) w4) as [w5 vnd].
  destruct (await_api_spec "/api/triage" (Reads.triage rs) w5)
    as (Hv6 & Hc6 & Hs6 & Hp6).
  destruct (await_api "/api/triage" (Reads.triage rs) w5) as [w6 tri].
  destruct (await_api_spec "/api/policy" (Reads.policy rs) w6)
    as (Hv7 & Hc7 & Hs7 & Hp7).
  destruct (await_api "/api/policy" (Reads.policy rs) w6) as [w7 pol].
  cbn [fst snd] in *. subst d dc m an vnd tri pol.
  exists w7. split; [reflexivity|]. split; [|split].
  - rewrite Hc7, Hc6, Hc5, Hc4, Hc3, Hc2, Hc1.
    unfold reload_paths. rewrite <- !app_assoc. reflexivity.
  - congruence.
  - congruence.
Qed.

(** C10 as stated fails for a read that is answered with an error status
    other than 401 and 403 and a JSON body: the body counts as the response,
    and the documents loaded before are replaced by the empty list. *)
Lemma loadAll_clears_on_error_body :
  ok 500 = false
  /\ State.docs (World.S Sample.w_loaded)
     = [Sample.invoice "d1" (Some "REVIEW")]
  /\ State.docs (World.S (loadAll Sample.reads_500 Sample.w_loaded)) = [].
Proof. repeat split. Qed.

Lemma api_value_None {T} (r : fetched T) :
  api_value r = None <->
  r = Rejected
  \/ exists status json,
       r = Response status json
       /\ (status = 401%nat \/ status = 403%nat \/ json = None
           \/ json = Some Body.JNull).
Proof.
  unfold api_value. destruct r as [|status json].
  - split; [left; reflexivity|reflexivity].
  - destruct (Nat.eqb_spec status 401) as [->|H401].
    { split; [|reflexivity]. intros _. right. eauto 6. }
    destruct (Nat.eqb_spec status 403) as [->|H403].
    { cbn. split; [|reflexivity]. intros _. right. eauto 7. }
    rewrite andb_false_r.
    destruct json as [[|o]|].
    + split; [|reflexivity]. intros _. right. eauto 8.
    + split; [discriminate|].
      intros [Hr|(st & js & Heq & Hcases)]; [discriminate|].
      injection Heq as <- <-.
      destruct Hcases as [Hc|[Hc|[Hc|Hc]]]; congruence.
    + split; [|reflexivity]. intros _. right. eauto 8.
Qed.

Ltac loadAll_field rs w :=
  let w7 := fresh "w7" in
  let Hl := fresh "Hl" in
  let Hs := fresh "Hs" in
  destruct (loadAll_unfold rs w) as (w7 & Hl & _ & Hs & _);
  rewrite Hl; cbn [with_S World.S assign_reads State.docs State.matches
                   State.anomalies State.dash State.vendors State.triageData
                   State.policy State.api];
  unfold collections in Hs; injection Hs as Hd Ha Hdc Hm Han Hv Ht Hp;
  split; [intros Hnone; rewrite Hnone; assumption
         |intros o Hsome; rewrite Hsome; reflexivity].

(** C10, amended. The helper [api] never throws: it resolves to a value
    read off the outcome of the request, which is null when the request is
    rejected (a network failure), when the status is 401 or 403, and when
    the body is not JSON or is null, and only then. On a refresh, a
    collection whose read resolves to null keeps the value loaded before; a
    collection whose read resolves to an object becomes the field of that
    object, or the empty default when the field is missing. *)
Theorem loadAll_frame (rs : Reads.t) (w : World.t) :
  let s := World.S w in
  let s' := World.S (loadAll rs w) in
  (forall (T : Type) (p : string) (r : fetched T) (w0 : World.t),
     exists w1, api p r w0 = (w1, Normal (api_value r)))
  /\ (forall (T : Type) (r : fetched T),
        api_value r = None <->
        r = Rejected
        \/ exists status json,
             r = Response status json
             /\ (status = 401%nat \/ status = 403%nat \/ json = None
                 \/ json = Some Body.JNull))
  /\ ((api_value (Reads.dashboard rs) = None ->
       State.dash s' = State.dash s /\ State.api s' = State.api s)
      /\ (forall o, api_value (Reads.dashboard rs) = Some o ->
            State.dash s' = Body.fields o
            /\ State.api s' = Dash.api_mode (Body.fields o)))
  /\ ((api_value (Reads.documents rs) = None ->
       State.docs s' = State.docs s)
      /\ (forall o, api_value (Reads.documents rs) = Some o ->
            State.docs s' = default [] (Body.fields o)))
  /\ ((api_value (Reads.matches rs) = None ->
       State.matches s' = State.matches s)
      /\ (forall o, api_value (Reads.matches rs) = Some o ->
            State.matches s' = default [] (Body.fields o)))
  /\ ((api_value (Reads.anomalies rs) = None ->
       State.anomalies s' = State.anomalies s)
      /\ (forall o, api_value (Reads.anomalies rs) = Some o ->
            State.anomalies s' = default [] (Body.fields o)))
  /\ ((api_value (Reads.vendors rs) = None ->
       State.vendors s' = State.vendors s)
      /\ (forall o, api_value (Reads.vendors rs) = Some o ->
            State.vendors s' = default [] (Body.fields o)))
  /\ ((api_value (Reads.triage rs) = None ->
       State.triageData s' = State.triageData s)
      /\ (forall o, api_value (Reads.triage rs) = Some o ->
            State.triageData s' = Body.fields o))
  /\ ((api_value (Reads.policy rs) = None ->
       State.policy s' = State.policy s)
      /\ (forall o, api_value (Reads.policy rs) = Some o ->
            State.policy s' = default ∅ (Body.fields o))).
Proof.
  cbn zeta.
  split.
  { intros T p r w0. destruct (api_returns p r w0) as (w1 & Hw1 & _).
    exists w1. exact Hw1. }
  split; [intros T r; apply api_value_None|].
  split.
  { destruct (loadAll_unfold rs w) as (w7 & Hl & _ & Hs & _).
    rewrite Hl. cbn [with_S World.S assign_reads State.dash State.api].
    unfold collections in Hs. injection Hs as Hd Ha Hdc Hm Han Hv Ht Hp.
    split.
    - intros Hnone. rewrite Hnone. split; assumption.
    - intros o Hsome. rewrite Hsome. split; reflexivity. }
  do 5 (split; [loadAll_field rs w|]).
  loadAll_field rs w.
Qed.

Lemma loadAll_frame_witness :
  State.docs (World.S (loadAll Sample.reads_offline Sample.w_loaded))
  = [Sample.invoice "d1" (Some "REVIEW")].
Proof.
  destruct (loadAll_frame Sample.reads_offline Sample.w_loaded)
    as (_ & _ & _ & [Hkeep _] & _).
  rewrite Hkeep; reflexivity.
Defined.

(** ** Uploading one file *)

(** The three ways [uploadFile] ends, by the value of the upload request. *)
Lemma uploadFile_cases `{Host} (fname : string) (ticks : nat)
    (r : fetched Uploaded.t) (rs : Reads.t) (w : World.t) :
  exists w1,
    World.calls w1 = (World.calls w ++ ["/api/upload"])%list
    /\ collections (World.S w1) = collections (World.S w)
    /\ State.proc (World.S w1) = None
    /\ uploadFile fname ticks r rs w
       = match api_value r with
         | Some o =>
             let u := Body.fields o in
             if Uploaded.success u then
               match Uploaded.document u with
               | Some d => (loadAll rs (toast (upload_msg u d) w1), Normal tt)
               | None => (w1, Throw)
               end
             else (toast (str_or (Uploaded.error u) "Extraction failed") w1,
                   Normal tt)
         | None => (toast "Extraction failed" w1, Normal tt)
         end.
Proof.
  unfold uploadFile.
  destruct (await_api_spec "/api/upload" r (upload_pending fname ticks w))
    as (Hv & Hc & Hs & _).
  destruct (await_api "/api/upload" r (upload_pending fname ticks w))
    as [w0 j].
  cbn [fst snd] in *. subst j.
  exists (with_S (set_proc None) w0).
  split; [exact Hc|]. split; [exact Hs|]. split; reflexivity.
Qed.

(** C6. When the upload request resolves to null or to a response that is
    not marked success, [uploadFile] ends normally with the collections of
    the state as they were (no document is added), the processing indicator
    cleared, the toast set to the error text of the response when there is
    one and to 'Extraction failed' otherwise, and no request issued besides
    the upload itself. A response marked success that carries a document is
    followed by the seven reads of the reload; and a read of the reload is
    issued only after a response marked success. *)
Theorem uploadFile_failure `{Host} (fname : string) (ticks : nat)
    (r : fetched Uploaded.t) (rs : Reads.t) (w : World.t) :
  let res := uploadFile fname ticks r rs w in
  let s' := World.S (fst res) in
  ((forall o, api_value r = Some o ->
              Uploaded.success (Body.fields o) = false) ->
   snd res = Normal tt
   /\ collections s' = collections (World.S w)
   /\ State.proc s' = None
   /\ State.toast s'
      = Some (str_or (api_value r ≫= fun o => Uploaded.error (Body.fields o))
                     "Extraction failed")
   /\ World.calls (fst res) = (World.calls w ++ ["/api/upload"])%list)
  /\ (forall o d,
        api_value r = Some o ->
        Uploaded.success (Body.fields o) = true ->
        Uploaded.document (Body.fields o) = Some d ->
        snd res = Normal tt
        /\ State.proc s' = None
        /\ World.calls (fst res)
           = (World.calls w ++ "/api/upload" :: reload_paths)%list)
  /\ (forall p,
        p ∈ reload_paths ->
        p ∈ drop (length (World.calls w)) (World.calls (fst res)) ->
        exists o, api_value r = Some o
                  /\ Uploaded.success (Body.fields o) = true).
Proof.
  cbn zeta.
  destruct (uploadFile_cases fname ticks r rs w) as (w1 & Hc & Hs & Hp & ->).
  assert (Hnot : forall p, p ∈ reload_paths ->
                   ~ p ∈ drop (length (World.calls w)) (World.calls w1)).
  { intros p Hin. rewrite Hc, drop_app_length. intros Hp'.
    apply list_elem_of_singleton in Hp' as ->.
    assert (Hb : bool_decide ("/api/upload" ∈ reload_paths) = false)
      by (vm_compute; reflexivity).
    apply bool_decide_eq_false in Hb. exact (Hb Hin). }
  destruct (api_value r) as [o|]; cbn [mbind option_bind]; cbn zeta.
  - destruct (Uploaded.success (Body.fields o)) eqn:Hsucc.
    + split; [intros Hf; specialize (Hf o eq_refl); congruence|].
      split; [|intros p _ _; exists o; split; [reflexivity|exact Hsucc]].
      intros o' d [= <-] _ Hdoc. rewrite Hdoc. cbn [fst snd].
      destruct (loadAll_unfold rs (toast (upload_msg (Body.fields o) d) w1))
        as (w7 & -> & Hc7 & _ & Hp7).
      split; [reflexivity|]. split.
      * cbn. cbn in Hp7. rewrite Hp7. exact Hp.
      * cbn [with_S World.calls]. rewrite Hc7. cbn [toast with_S World.calls].
        rewrite Hc, <- app_assoc. reflexivity.
    + split; [|split].
      * intros _. cbn [fst snd toast with_S World.S World.calls].
        repeat split; assumption.
      * intros o' d [= <-] Ht. congruence.
      * intros p Hin Hp'. exfalso.
        cbn [fst toast with_S World.calls] in Hp'.
        exact (Hnot p Hin Hp').
  - split; [|split].
    + intros _. cbn [fst snd toast with_S World.S World.calls].
      repeat split; assumption.
    + intros o d Ho. discriminate Ho.
    + intros p Hin Hp'. exfalso.
      cbn [fst toast with_S World.calls] in Hp'.
      exact (Hnot p Hin Hp').
Qed.

Lemma uploadFile_failure_witness :
  State.toast
    (World.S (fst (@uploadFile Reference.host "scan.pdf" 3
                     Sample.upload_refused Sample.reads_offline
                     Sample.w_loaded)))
  = Some "Unsupported file type"
  /\ State.toast
       (World.S (fst (@uploadFile Reference.host "scan.pdf" 3
                        Rejected Sample.reads_offline Sample.w_loaded)))
     = Some "Extraction failed".
Proof.
  split.
  - destruct (@uploadFile_failure Reference.host "scan.pdf" 3
                Sample.upload_refused Sample.reads_offline Sample.w_loaded)
      as ((_ & _ & _ & Htoast & _) & _).
    + intros o [= <-]. reflexivity.
    + rewrite Htoast. reflexivity.
  - destruct (@uploadFile_failure Reference.host "scan.pdf" 3
                Rejected Sample.reads_offline Sample.w_loaded)
      as ((_ & _ & _ & Htoast & _) & _).
    + intros o Ho. discriminate Ho.
    + rewrite Htoast. reflexivity.
Defined.

(** ** Saving corrections: the line items *)

Section LineItems.
Context `{Host}.

Lemma li_key_step_length (lis : list LineItem.t) (kv : string * string) :
  length (li_key_step lis kv) = length lis.
Proof.
  destruct kv as [k v]. unfold li_key_step.
  destruct (li_index k) as [j|]; [|reflexivity].
  destruct (lis !! j); [|reflexivity].
  apply length_insert.
Qed.




Lemma fold_length (keys : list (string * string)) (lis : list LineItem.t) :
  length (fold_left li_key_step keys lis) = length lis.
Proof.
  revert lis. induction keys as [|kv keys IH]; intros lis; [reflexivity|].
  cbn [fold_left]. rewrite IH. apply li_key_step_length.
Qed.






End LineItems.



(** ** The definitions at work *)

Example fmtx_sample :
  @fmtx Reference.host (Num (12345678 # 100)) None = "$123,456.78".
Proof. vm_compute. reflexivity. Qed.

Example fmt_sample :
  @fmt Reference.host (Num (-2500000)) (Some "INR") = "₹-2.5M".
Proof. vm_compute. reflexivity. Qed.

Example split_sample : split "_" "li_12_price" = ["li"; "12"; "price"].
Proof. reflexivity. Qed.

Example anomalies_sample :
  AnomaliesView.risk_text
    (@anomaliesTab Reference.host
       [Sample.a_overcharge; Sample.a_resolved; Sample.a_discount])
  = "$1,195".
Proof. vm_compute. reflexivity. Qed.

Example missing_amount_sample :
  OpenCard.text
    (@open_card Reference.host
       {| Anomaly.id := "a4"; Anomaly.status := "open";
          Anomaly.amount_at_risk := Undefined; Anomaly.currency := None |})
  = "$0.00 savings".
Proof. vm_compute. reflexivity. Qed.

Example saveEdits_sample :
  (EditRequest.lineItems <$> @saveEdits_request Reference.host Sample.s_editing)
  = Some (Some [ {| LineItem.description := Some "Widgets";
                    LineItem.quantity :=
                      Num (or0 (Reference.parse_float "3"));
                    LineItem.unitPrice := Num 0;
                    LineItem.total :=
                      Num (or0 (Reference.parse_float "3") * 0) |} ]).
Proof. reflexivity. Qed.

Example upload_sample :
  uploadFile (H := Reference.host) "scan.pdf" 7 (Response 401 None)
    Sample.reads_offline Sample.w_loaded
  = ({| World.S := set_toast (Some "Extraction failed")
                     (drop_auth Sample.s_loaded);
        World.sessionStorage := ∅;
        World.calls := ["/api/upload"] |}, Normal tt).
Proof. vm_compute. reflexivity. Qed.

(** * Properties of the rest of the front end *)

(** ** PO Matching *)

Lemma fulPct_unfold_pos (m : Match.t) :
  (0 < Match.poAmount m)%Q ->
  fulPct m
  = Math_round ((or0 (Match.poAlreadyInvoiced m) + Match.invoiceAmount m)
                / Match.poAmount m * 100).
Proof.
  intros Hp. unfold fulPct. apply Qlt_bool_iff in Hp. rewrite Hp. reflexivity.
Qed.

Lemma Math_round_le (x y : Q) : (x <= y)%Q -> (Math_round x <= Math_round y)%Z.
Proof.
  intros Hxy. unfold Math_round. apply Qfloor_resp_le. lra.
Qed.

Lemma Math_round_Z (z : Z) : Math_round (inject_Z z) = z.
Proof.
  apply Z.le_antisymm.
  - destruct (Math_round_nearest (inject_Z z)) as [Hlo _].
    assert (H : (inject_Z (Math_round (inject_Z z)) < inject_Z (z + 1))%Q).
    { rewrite inject_Z_plus. change (inject_Z 1) with 1%Q. lra. }
    rewrite <- Zlt_Qlt in H. lia.
  - rewrite <- (Qfloor_Z z) at 1. unfold Math_round.
    apply Qfloor_resp_le. lra.
Qed.

(** X1. The bar of a row is never wider than 100 percent; once the amounts
    invoiced against a PO of positive amount reach that amount, the row
    shows at least 100 percent and a full bar. *)
Theorem fulPct_fully_invoiced (m : Match.t) :
  (MatchRow.barWidth (matching_row m) <= 100)%Z
  /\ ((0 < Match.poAmount m)%Q ->
      (Match.poAmount m
       <= or0 (Match.poAlreadyInvoiced m) + Match.invoiceAmount m)%Q ->
      (100 <= MatchRow.fulPct (matching_row m))%Z
      /\ MatchRow.barWidth (matching_row m) = 100%Z).
Proof.
  cbn [matching_row MatchRow.barWidth MatchRow.fulPct]. split; [lia|].
  intros Hp Hfull.
  assert (H100 : (100 <= fulPct m)%Z).
  { rewrite (fulPct_unfold_pos m Hp).
    apply Z.le_trans with (Math_round (inject_Z 100));
      [rewrite Math_round_Z; lia|].
    apply Math_round_le.
    set (x := (or0 (Match.poAlreadyInvoiced m) + Match.invoiceAmount m)%Q)
      in *.
    assert (H1 : (1 <= x / Match.poAmount m)%Q).
    { apply Qle_shift_div_l; [exact Hp|]. lra. }
    change (inject_Z 100) with 100%Q. lra. }
  split; [exact H100|lia].
Qed.

Lemma fulPct_fully_invoiced_witness :
  MatchRow.barWidth
    (matching_row
       {| Match.id := "m3"; Match.status := "review_needed";
          Match.matchType := "two_way"; Match.overInvoiced := true;
          Match.invoiceAmount := 700; Match.poAmount := 1000;
          Match.poAlreadyInvoiced := Num 505 |}) = 100%Z.
Proof.
  match goal with
  | |- MatchRow.barWidth (matching_row ?m) = _ =>
      destruct (fulPct_fully_invoiced m) as [_ Hfull]
  end.
  apply Hfull; [reflexivity|]. cbn. discriminate.
Defined.

(** X2. With the PO amount and the amount already invoiced fixed, a larger
    invoice amount never shows a smaller fulfilled percentage. *)
Theorem fulPct_monotone (m m' : Match.t) :
  Match.poAmount m' = Match.poAmount m ->
  Match.poAlreadyInvoiced m' = Match.poAlreadyInvoiced m ->
  (Match.invoiceAmount m <= Match.invoiceAmount m')%Q ->
  (fulPct m <= fulPct m')%Z.
Proof.
  intros Hpo Hal Hle. unfold fulPct. rewrite Hpo, Hal.
  destruct (Qlt_bool 0 (Match.poAmount m)) eqn:Hb; [|lia].
  apply Qlt_bool_iff in Hb. apply Math_round_le.
  apply Qmult_le_compat_r; [|discriminate].
  unfold Qdiv. apply Qmult_le_compat_r.
  - lra.
  - apply Qlt_le_weak, Qinv_lt_0_compat. exact Hb.
Qed.

Lemma fulPct_monotone_witness :
  (fulPct Sample.m_partial
   <= fulPct {| Match.id := "m3"; Match.status := "review_needed";
               Match.matchType := "two_way"; Match.overInvoiced := true;
               Match.invoiceAmount := 700; Match.poAmount := 1000;
               Match.poAlreadyInvoiced := Num 505 |})%Z.
Proof.
  apply fulPct_monotone; [reflexivity|reflexivity|].
  cbn. discriminate.
Defined.

Lemma filter_complement_length {A : Type} (P : A -> Prop)
    `{forall x, Decision (P x)} (l : list A) :
  (length (filter P l) + length (filter (fun x => ~ P x) l))%nat = length l.
Proof.
  induction l as [|x l IH]; [reflexivity|].
  rewrite !filter_cons.
  destruct (decide (P x)) as [Hp|Hp];
    destruct (decide (~ P x)) as [Hn|Hn]; cbn [length]; try tauto; lia.
Qed.

(** X3. In the header of the PO Matching view the three-way and the two-way
    counts add up to the number of matches, the two-way count being the
    number of matches whose type is anything but three_way; the auto-matched
    and the need-review counts cover all matches exactly when every status
    is one of these two. A row has the approve and reject buttons exactly
    when its status is review_needed, while its badge reads review for every
    status other than auto_matched. *)
Theorem matching_header_counts (matches : list Match.t) :
  let h := matching_header matches in
  MatchingHeader.nw h
  = Z.of_nat (length (filter (fun m => Match.matchType m <> "three_way")
                             matches))
  /\ (Z.of_nat (MatchingHeader.tw h) + MatchingHeader.nw h
      = Z.of_nat (length matches))%Z
  /\ (MatchingHeader.mt h + MatchingHeader.rv h <= length matches)%nat
  /\ ((MatchingHeader.mt h + MatchingHeader.rv h)%nat = length matches <->
      forall m, m ∈ matches ->
                Match.status m = "auto_matched"
                \/ Match.status m = "review_needed")
  /\ (forall m, (MatchRow.actions (matching_row m) = true <->
                 Match.status m = "review_needed")
                /\ (match_badge m = "review" <->
                    Match.status m <> "auto_matched")).
Proof.
  cbn zeta. cbn [matching_header MatchingHeader.nw MatchingHeader.tw
                 MatchingHeader.mt MatchingHeader.rv].
  pose proof (filter_complement_length
                (fun m => Match.matchType m = "three_way") matches) as Htw.
  assert (Hst : forall l : list Match.t,
    (length (filter (fun m => Match.status m = "auto_matched") l)
     + length (filter (fun m => Match.status m = "review_needed") l)
     <= length l)%nat
    /\ ((length (filter (fun m => Match.status m = "auto_matched") l)
         + length (filter (fun m => Match.status m = "review_needed") l))%nat
        = length l <->
        forall m, m ∈ l -> Match.status m = "auto_matched"
                           \/ Match.status m = "review_needed")).
  { induction l as [|x l [IHle IHeq]].
    - split; [cbn; lia|]. split; [|reflexivity].
      intros _ m Hm. apply elem_of_nil in Hm. destruct Hm.
    - rewrite !filter_cons.
      destruct (decide (Match.status x = "auto_matched")) as [Ha|Ha];
        destruct (decide (Match.status x = "review_needed")) as [Hr|Hr];
        try congruence; cbn [length].
      + split; [lia|]. split.
        * intros Heq m Hm. apply elem_of_cons in Hm as [->|Hm]; [tauto|].
          apply IHeq; [lia|exact Hm].
        * intros Hall.
          assert (Hl : forall m, m ∈ l -> Match.status m = "auto_matched"
                                 \/ Match.status m = "review_needed")
            by (intros m Hm; apply Hall, list_elem_of_further, Hm).
          apply IHeq in Hl. lia.
      + split; [lia|]. split.
        * intros Heq m Hm. apply elem_of_cons in Hm as [->|Hm]; [tauto|].
          apply IHeq; [lia|exact Hm].
        * intros Hall.
          assert (Hl : forall m, m ∈ l -> Match.status m = "auto_matched"
                                 \/ Match.status m = "review_needed")
            by (intros m Hm; apply Hall, list_elem_of_further, Hm).
          apply IHeq in Hl. lia.
      + split; [lia|]. split.
        * intros Heq. lia.
        * intros Hall. exfalso.
          destruct (Hall x (list_elem_of_here _ _)); contradiction. }
  split; [lia|]. split; [lia|].
  destruct (Hst matches) as [Hle Heq].
  split; [exact Hle|]. split; [exact Heq|].
  intros m. split.
  - cbn [matching_row MatchRow.actions]. apply bool_decide_eq_true.
  - unfold match_badge. case_bool_decide; split; intros; congruence.
Qed.

(** ** Anomalies view: the counts *)

(** X4. Every anomaly of the state is counted once in the header of the
    Anomalies view, as open or as resolved; there is one open card per open
    anomaly; and at most ten resolved cards are shown, the first ten
    anomalies that are not open. *)
Theorem anomalies_partition `{Host} (anomalies : list Anomaly.t) :
  let v := anomaliesTab anomalies in
  (AnomaliesView.open_count v + AnomaliesView.resolved_count v)%nat
  = length anomalies
  /\ length (AnomaliesView.open_cards v) = AnomaliesView.open_count v
  /\ length (AnomaliesView.resolved_cards v)
     = Nat.min 10 (AnomaliesView.resolved_count v)
  /\ (forall a, a ∈ AnomaliesView.resolved_cards v ->
                a ∈ anomalies /\ Anomaly.status a <> "open").
Proof.
  cbn zeta.
  cbn [anomaliesTab AnomaliesView.open_count AnomaliesView.resolved_count
       AnomaliesView.open_cards AnomaliesView.resolved_cards].
  split; [apply filter_complement_length|].
  split; [apply length_map|]. split; [apply length_take|].
  intros a Ha. apply subseteq_take in Ha.
  apply list_elem_of_filter in Ha. tauto.
Qed.

(** ** Triage view: the counts and the rate *)

Lemma triage_lane_counts (inv : list Doc.t) :
  (length (filter (fun i => Doc.triageLane i = Some "AUTO_APPROVE") inv)
   + length (filter (fun i => Doc.triageLane i = Some "REVIEW") inv)
   + length (filter (fun i => Doc.triageLane i = Some "BLOCK") inv)
   <= length inv)%nat.
Proof.
  induction inv as [|x l IH]; [cbn; lia|].
  rewrite !filter_cons.
  destruct (decide (Doc.triageLane x = Some "AUTO_APPROVE")) as [Ha|Ha];
    destruct (decide (Doc.triageLane x = Some "REVIEW")) as [Hr|Hr];
    destruct (decide (Doc.triageLane x = Some "BLOCK")) as [Hb|Hb];
    try congruence; cbn [length]; lia.
Qed.

(** X5. In the Triage view the three counts never add up to more than the
    number of invoice-type documents, the auto-approve rate lies between 0
    and 100, and the notice that nothing was triaged shows exactly when the
    state holds no invoice-type document. *)
Theorem triage_counts (docs : list Doc.t) :
  let v := triageTab docs in
  (TriageView.auto_count v + TriageView.review_count v
   + TriageView.blocked_count v
   <= length (filter is_invoice_type docs))%nat
  /\ (0 <= TriageView.pct v <= 100)%Z
  /\ (TriageView.empty_notice v = true <->
      forall d, d ∈ docs -> ~ is_invoice_type d).
Proof.
  cbn zeta.
  cbn [triageTab TriageView.auto_count TriageView.review_count
       TriageView.blocked_count TriageView.pct TriageView.empty_notice].
  set (inv := filter is_invoice_type docs).
  split; [apply triage_lane_counts|]. split.
  - destruct (0 <? length inv)%nat eqn:Hn; [|lia].
    apply Nat.ltb_lt in Hn.
    set (a := length (filter (fun i => Doc.triageLane i = Some "AUTO_APPROVE")
                             inv)).
    assert (Ha : (a <= length inv)%nat) by apply length_filter.
    assert (Hq : (0 <= inject_Z (Z.of_nat a) / inject_Z (Z.of_nat (length inv))
                  <= 1)%Q).
    { assert (Hpos : (0 < inject_Z (Z.of_nat (length inv)))%Q).
      { change 0%Q with (inject_Z 0). rewrite <- Zlt_Qlt. lia. }
      split.
      - apply Qle_shift_div_l; [exact Hpos|]. rewrite Qmult_0_l.
        change 0%Q with (inject_Z 0). rewrite <- Zle_Qle. lia.
      - apply Qle_shift_div_r; [exact Hpos|]. rewrite Qmult_1_l.
        rewrite <- Zle_Qle. lia. }
    split.
    + apply Z.le_trans with (Math_round (inject_Z 0));
        [rewrite Math_round_Z; lia|].
      apply Math_round_le. change (inject_Z 0) with 0%Q. lra.
    + apply Z.le_trans with (Math_round (inject_Z 100));
        [|rewrite Math_round_Z; lia].
      apply Math_round_le. change (inject_Z 100) with 100%Q. lra.
  - rewrite bool_decide_eq_true. split.
    + intros Hlen d Hd Hinv.
      apply length_zero_iff_nil in Hlen.
      assert (Hin : d ∈ inv) by (apply list_elem_of_filter; tauto).
      rewrite Hlen in Hin. apply elem_of_nil in Hin. exact Hin.
    + intros Hnone. destruct inv as [|d l] eqn:Hinv; [reflexivity|].
      exfalso.
      assert (Hin : d ∈ inv) by (rewrite Hinv; apply list_elem_of_here).
      apply list_elem_of_filter in Hin as [Hty Hd].
      exact (Hnone d Hd Hty).
Qed.

(** ** Dashboard: the heights of the aging bars and the vendor bars *)

Lemma chart_max_bounds (l : list Q) :
  (1 <= fold_right Qmax 1 l)%Q
  /\ forall x, x ∈ l -> (x <= fold_right Qmax 1 l)%Q.
Proof.
  induction l as [|y l [IH1 IHx]]; cbn [fold_right].
  - split; [apply Qle_refl|]. intros x Hx. apply elem_of_nil in Hx.
    destruct Hx.
  - split.
    + eapply Qle_trans; [exact IH1|apply Q.le_max_r].
    + intros x Hx. apply elem_of_cons in Hx as [->|Hx].
      * apply Q.le_max_l.
      * eapply Qle_trans; [apply IHx; exact Hx|apply Q.le_max_r].
Qed.

(** X6. The scale of the aging chart is at least 1, so no height divides
    by zero; no bar is lower than 6 pixels, no bar exceeds the scale, and a
    bar of a non-negative amount is at most 110 pixels high. *)
Theorem aging_bar_heights `{Host} (d : Dash.t) (b : Bar.t) :
  b ∈ aging_chart d ->
  (1 <= chart_max (aging_or_empty d))%Q
  /\ (6 <= Bar.h b)%Q
  /\ (Bar.a b <= chart_max (aging_or_empty d))%Q
  /\ ((0 <= Bar.a b)%Q -> (Bar.h b <= 110)%Q).
Proof.
  unfold aging_chart. intros Hb.
  apply list_elem_of_fmap in Hb as (bu & -> & Hbu).
  set (ag := aging_or_empty d).
  destruct (chart_max_bounds
              (map (fun b => default 0%Q (Aging.buckets ag !! Bucket.k b)) bk))
    as [Hone Hle].
  fold (chart_max ag) in Hone, Hle.
  assert (Ha : (default 0%Q (Aging.buckets ag !! Bucket.k bu)
                <= chart_max ag)%Q).
  { apply Hle. apply list_elem_of_fmap. exists bu. split; [reflexivity|].
    exact Hbu. }
  cbn [aging_bar Bar.h Bar.a].
  split; [exact Hone|]. split; [apply Q.le_max_l|]. split; [exact Ha|].
  intros H0. apply Q.max_lub; [discriminate|].
  set (a := default 0%Q (Aging.buckets ag !! Bucket.k bu)) in *.
  assert (Hq : (a / chart_max ag <= 1)%Q).
  { apply Qle_shift_div_r; [lra|]. lra. }
  lra.
Qed.

Lemma aging_bar_heights_witness :
  exists b, b ∈ @aging_chart Reference.host Sample.d_one_bucket
            /\ (6 <= Bar.h b)%Q /\ (Bar.h b <= 110)%Q.
Proof.
  assert (Hb : @aging_bar Reference.host
                 (aging_or_empty Sample.d_one_bucket)
                 (chart_max (aging_or_empty Sample.d_one_bucket))
                 {| Bucket.k := "1_30"; Bucket.l := "1-30";
                    Bucket.c := "var(--wn)" |}
               ∈ @aging_chart Reference.host Sample.d_one_bucket).
  { unfold aging_chart, bk. cbn [map].
    apply list_elem_of_further, list_elem_of_here. }
  eexists. split; [exact Hb|].
  destruct (@aging_bar_heights Reference.host Sample.d_one_bucket _ Hb)
    as (_ & Hlo & _ & Hhi).
  split; [exact Hlo|]. apply Hhi. vm_compute. discriminate.
Defined.

(** X7. In the list of top vendors there is one bar per vendor; when the
    first vendor has a positive spend its own bar is 100 percent wide, and
    when it has not, every bar has width 0 and nothing is divided by it. *)
Theorem top_vendor_bars (tv : list TopVendor.t) :
  length (top_vendor_pcts tv) = length tv
  /\ (forall v0 rest,
        tv = v0 :: rest -> (0 < TopVendor.spend v0)%Q ->
        exists p ps, top_vendor_pcts tv = p :: ps /\ (p == 100)%Q)
  /\ (forall v0 rest,
        tv = v0 :: rest -> (TopVendor.spend v0 <= 0)%Q ->
        forall p, p ∈ top_vendor_pcts tv -> p = 0%Q).
Proof.
  split; [apply length_map|]. split.
  - intros v0 rest -> Hpos. unfold top_vendor_pcts. cbn [map head].
    apply Qlt_bool_iff in Hpos as Hb. rewrite Hb.
    eexists. eexists. split; [reflexivity|].
    field. intros Hz. rewrite Hz in Hpos. exact (Qlt_irrefl _ Hpos).
  - intros v0 rest -> Hle p Hp. unfold top_vendor_pcts in Hp.
    apply list_elem_of_fmap in Hp as (v & -> & _). cbn [head].
    apply Qlt_bool_false in Hle. rewrite Hle. reflexivity.
Qed.

Lemma top_vendor_bars_witness :
  exists p ps,
    top_vendor_pcts [ {| TopVendor.vendor := Some "Acme";
                         TopVendor.spend := 4000 |};
                      {| TopVendor.vendor := None;
                         TopVendor.spend := 1000 |} ] = p :: ps
    /\ (p == 100)%Q.
Proof.
  match goal with
  | |- exists p ps, top_vendor_pcts ?tv = _ /\ _ =>
      destruct (top_vendor_bars tv) as (_ & Hfirst & _)
  end.
  eapply Hfirst; [reflexivity|reflexivity].
Defined.

(** ** The processing overlay *)

Lemma checked_count (cs : nat) :
  length (filter (fun b : bool => b = true)
            (imap (fun i (_ : string) => (i <=? cs)%nat) processing_steps))
  = Nat.min (cs + 1) 6.
Proof.
  unfold processing_steps. cbn [imap].
  do 6 (destruct cs as [|cs]; [reflexivity|]).
  rewrite Nat.min_r by lia. reflexivity.
Qed.

(** X8. With an upload in progress the overlay renders; of its six steps it
    ticks as many as the step counter plus one, six at most. While one file
    is uploaded it has no progress bar, at least one step is ticked from the
    start, and all six are ticked from the fifth firing of the timer on. *)
Theorem processing_checklist (p : Proc.t) :
  exists o,
    processing (Some p) = Normal o
    /\ length (Overlay.checked o) = 6%nat
    /\ length (filter (fun b : bool => b = true) (Overlay.checked o))
       = Nat.min (Proc.st p + 1) 6
    /\ (forall fname ticks w,
          State.proc (World.S (upload_pending fname ticks w)) = Some p ->
          Overlay.bar o = None
          /\ Overlay.title o = "Analyzing Document"
          /\ length (filter (fun b : bool => b = true) (Overlay.checked o))
             = (Nat.min ticks 5 + 1)%nat).
Proof.
  eexists. split; [reflexivity|].
  cbn [Overlay.checked Overlay.bar Overlay.title].
  split; [reflexivity|]. split; [apply checked_count|].
  intros fname ticks w Hp. cbn in Hp. injection Hp as <-.
  cbn [Proc.total Proc.st]. split; [reflexivity|]. split; [reflexivity|].
  rewrite checked_count. lia.
Qed.

Lemma processing_checklist_witness :
  exists o,
    processing (State.proc (World.S (upload_pending "scan.pdf" 2
                                       Sample.w_loaded))) = Normal o
    /\ length (filter (fun b : bool => b = true) (Overlay.checked o)) = 3%nat.
Proof.
  destruct (processing_checklist
              {| Proc.fn := "scan.pdf"; Proc.st := 2; Proc.cur := 1;
                 Proc.total := 1 |}) as (o & Ho & _ & _ & Hup).
  exists o. split; [exact Ho|].
  destruct (Hup "scan.pdf" 2%nat Sample.w_loaded eq_refl) as (_ & _ & Hn).
  exact Hn.
Defined.

(** X9. During a bulk upload the overlay shows a progress bar whose width,
    for a file counter between 1 and the number of files, lies between 0 and
    100 percent and is 100 for the last file. *)
Theorem processing_bulk_bar (p : Proc.t) :
  (1 < Proc.total p)%nat ->
  (Proc.cur p <= Proc.total p)%nat ->
  exists o z,
    processing (Some p) = Normal o
    /\ Overlay.bar o = Some z
    /\ (0 <= z <= 100)%Z
    /\ (Proc.cur p = Proc.total p -> z = 100%Z).
Proof.
  intros Htot Hcur. eexists. eexists. split; [reflexivity|].
  cbn [Overlay.bar]. apply Nat.ltb_lt in Htot as Hb. rewrite Hb.
  split; [reflexivity|].
  assert (Hpos : (0 < inject_Z (Z.of_nat (Proc.total p)))%Q).
  { change 0%Q with (inject_Z 0). rewrite <- Zlt_Qlt. lia. }
  assert (Hq : (0 <= inject_Z (Z.of_nat (Proc.cur p))
                     / inject_Z (Z.of_nat (Proc.total p)) <= 1)%Q).
  { split.
    - apply Qle_shift_div_l; [exact Hpos|]. rewrite Qmult_0_l.
      change 0%Q with (inject_Z 0). rewrite <- Zle_Qle. lia.
    - apply Qle_shift_div_r; [exact Hpos|]. rewrite Qmult_1_l.
      rewrite <- Zle_Qle. lia. }
  split; [split|].
  - apply Z.le_trans with (Math_round (inject_Z 0));
      [rewrite Math_round_Z; lia|].
    apply Math_round_le. change (inject_Z 0) with 0%Q. lra.
  - apply Z.le_trans with (Math_round (inject_Z 100));
      [|rewrite Math_round_Z; lia].
    apply Math_round_le. change (inject_Z 100) with 100%Q. lra.
  - intros ->. rewrite <- (Math_round_Z 100) at 2.
    apply Math_round_comp. change (inject_Z 100) with 100%Q.
    field. intros Hz. rewrite Hz in Hpos. exact (Qlt_irrefl _ Hpos).
Qed.

Lemma processing_bulk_bar_witness :
  exists o z,
    processing (Some {| Proc.fn := "b.pdf"; Proc.st := 0; Proc.cur := 2;
                        Proc.total := 3 |}) = Normal o
    /\ Overlay.bar o = Some z /\ (0 <= z <= 100)%Z.
Proof.
  destruct (processing_bulk_bar
              {| Proc.fn := "b.pdf"; Proc.st := 0; Proc.cur := 2;
                 Proc.total := 3 |}) as (o & z & Ho & Hz & Hr & _).
  - cbn. lia.
  - cbn. lia.
  - exists o, z. split; [exact Ho|]. split; [exact Hz|exact Hr].
Defined.

(** ** The application shell *)

Lemma nav_role_iff (s : State.t) (x : string) :
  x <> "" -> x <> "analyst" ->
  (str_or (Some (user_role s)) "analyst" = x <-> user_role s = x).
Proof.
  intros Hx Hy. destruct (user_role s) as [|c r]; cbn [str_or].
  - split; intros Heq; congruence.
  - reflexivity.
Qed.

(** X10. The Admin block of the sidebar (load sample data, export, import,
    clear all data) is shown exactly when the role of the current user is
    cfo or vp; whoever sees it also has the AP Policy entry, while a manager
    has that entry without the Admin block. *)
Theorem admin_block (s : State.t) :
  (admin_actions s = ["seed"; "export"; "import"; "reset"]
   \/ admin_actions s = [])
  /\ (admin_actions s <> [] <-> user_role s = "cfo" \/ user_role s = "vp")
  /\ (admin_actions s <> [] -> "settings" ∈ nav_tabs s)
  /\ (user_role s = "manager" ->
      admin_actions s = [] /\ "settings" ∈ nav_tabs s).
Proof.
  assert (Hadm : admin_actions s <> [] <->
                 user_role s = "cfo" \/ user_role s = "vp").
  { unfold admin_actions.
    rewrite <- (nav_role_iff s "cfo"), <- (nav_role_iff s "vp")
      by discriminate.
    repeat case_bool_decide; cbn [orb]; split; intros Hx;
      try tauto; try discriminate; try congruence;
      destruct Hx; contradiction. }
  split; [|split; [exact Hadm|split]].
  - unfold admin_actions. destruct (_ || _); [left|right]; reflexivity.
  - intros Hne. apply nav_settings_iff. apply Hadm in Hne. tauto.
  - intros Hm. split.
    + destruct (decide (admin_actions s = [])) as [He|Hne]; [exact He|].
      apply Hadm in Hne. destruct Hne; congruence.
    + apply nav_settings_iff. tauto.
Qed.

Lemma admin_block_witness :
  admin_actions (set_currentRole "manager" Sample.s_loaded) = []
  /\ "settings" ∈ nav_tabs (set_currentRole "manager" Sample.s_loaded).
Proof.
  destruct (admin_block (set_currentRole "manager" Sample.s_loaded))
    as (_ & _ & _ & Hm).
  apply Hm. reflexivity.
Defined.

Lemma main_view_settings (s : State.t) :
  State.tab s = "settings" ->
  user_role s = "manager" \/ user_role s = "vp" \/ user_role s = "cfo" ->
  main_view s = VSettings.
Proof.
  intros Htab Hrole. unfold main_view. rewrite Htab.
  repeat (rewrite bool_decide_eq_false_2 by discriminate).
  rewrite (bool_decide_eq_true_2 ("settings" = "settings")) by reflexivity.
  rewrite bool_decide_eq_true_2; [reflexivity|].
  apply role_allowed_iff. exact Hrole.
Qed.

(** X11. No button of the navigation leads to the access-restricted
    message: after a click on any of them the main pane is another view,
    the settings screen for the AP Policy entry, and the navigation is
    unchanged. *)
Theorem nav_click (s : State.t) (t : string) :
  t ∈ nav_tabs s ->
  main_view (tab_click t s) <> VAccessRestricted
  /\ (t = "settings" -> main_view (tab_click t s) = VSettings)
  /\ nav_tabs (tab_click t s) = nav_tabs s.
Proof.
  intros Ht.
  assert (Hrole : user_role (tab_click t s) = user_role s) by reflexivity.
  assert (Hnav : nav_tabs (tab_click t s) = nav_tabs s) by reflexivity.
  assert (Hset : t = "settings" -> main_view (tab_click t s) = VSettings).
  { intros ->. apply nav_settings_iff in Ht.
    apply main_view_settings; [reflexivity|]. rewrite Hrole. exact Ht. }
  split; [|split; [exact Hset|exact Hnav]].
  destruct (decide (t = "settings")) as [Heq|Hne].
  - rewrite (Hset Heq). discriminate.
  - unfold main_view. cbn [tab_click set_tab State.tab].
    rewrite (bool_decide_eq_false_2 (t = "settings")) by exact Hne.
    repeat case_bool_decide; discriminate.
Qed.

Lemma nav_click_witness :
  main_view (tab_click "matching" Sample.s_loaded) <> VAccessRestricted.
Proof.
  destruct (nav_click Sample.s_loaded "matching") as (Hview & _).
  - vm_compute. repeat first [apply list_elem_of_here
                             |apply list_elem_of_further].
  - exact Hview.
Defined.

(** ** The API helper: what a call leaves alone *)

Lemma await_api_ui {T} (p : string) (r : fetched T) (w : World.t) :
  ui_fields (World.S (fst (await_api p r w))) = ui_fields (World.S w).
Proof.
  unfold await_api, api, api_try.
  destruct r as [|status json]; [reflexivity|].
  destruct (status =? 401)%nat; [reflexivity|].
  destruct json as [[|o]|];
    destruct (negb (ok status) && (status =? 403)%nat); reflexivity.
Qed.

Lemma loadAll_ui (rs : Reads.t) (w : World.t) :
  ui_fields (World.S (loadAll rs w)) = ui_fields (World.S w).
Proof.
  unfold loadAll.
  pose proof (await_api_ui "/api/dashboard" (Reads.dashboard rs) w) as H1.
  destruct (await_api "/api/dashboard" (Reads.dashboard rs) w) as [w1 d].
  pose proof (await_api_ui "/api/documents" (Reads.documents rs) w1) as H2.
  destruct (await_api "/api/documents" (Reads.documents rs) w1) as [w2 dc].
  pose proof (await_api_ui "/api/matches" (Reads.matches rs) w2) as H3.
  destruct (await_api "/api/matches" (Reads.matches rs) w2) as [w3 m].
  pose proof (await_api_ui "/api/anomalies" (Reads.anomalies rs) w3) as H4.
  destruct (await_api "/api/anomalies" (Reads.anomalies rs) w3) as [w4 an].
  pose proof (await_api_ui "/api/vendors" (Reads.vendors rs) w4) as H5.
  destruct (await_api "/api/vendors" (Reads.vendors rs) w4) as [w5 vnd].
  pose proof (await_api_ui "/api/triage" (Reads.triage rs) w5) as H6.
  destruct (await_api "/api/triage" (Reads.triage rs) w5) as [w6 tri].
  pose proof (await_api_ui "/api/policy" (Reads.policy rs) w6) as H7.
  destruct (await_api "/api/policy" (Reads.policy rs) w6) as [w7 pol].
  cbn [fst] in *.
  rewrite <- H1, <- H2, <- H3, <- H4, <- H5, <- H6, <- H7. reflexivity.
Qed.

Lemma loadAll_calls (rs : Reads.t) (w : World.t) :
  World.calls (loadAll rs w) = (World.calls w ++ reload_paths)%list.
Proof.
  destruct (loadAll_unfold rs w) as (w7 & -> & Hc & _). exact Hc.
Qed.

Lemma post_then_reload_spec (path : string) (clear_sel : bool) (msg : string)
    (r : fetched unit) (rs : Reads.t) (w : World.t) :
  State.toast (World.S (post_then_reload path clear_sel msg r rs w)) = Some msg
  /\ World.calls (post_then_reload path clear_sel msg r rs w)
     = (World.calls w ++ path :: reload_paths)%list
  /\ State.sel (World.S (post_then_reload path clear_sel msg r rs w))
     = if clear_sel then None else State.sel (World.S w).
Proof.
  unfold post_then_reload.
  destruct (await_api_spec path r w) as (_ & Hc & _ & _).
  pose proof (await_api_ui path r w) as Hui.
  destruct (await_api path r w) as [w1 j]. cbn [fst snd] in *.
  split; [reflexivity|]. split.
  - cbn [toast with_S World.calls]. rewrite loadAll_calls.
    destruct clear_sel; cbn [with_S World.calls]; rewrite Hc;
      rewrite <- app_assoc; reflexivity.
  - cbn [toast with_S World.S set_toast State.sel].
    pose proof (loadAll_ui rs (if clear_sel then with_S (set_sel None) w1
                               else w1)) as Hl.
    unfold ui_fields in Hl, Hui.
    injection Hl as _ _ Hsel _ _ _ _ _. rewrite Hsel.
    injection Hui as _ _ Hsel1 _ _ _ _ _.
    destruct clear_sel; [reflexivity|exact Hsel1].
Qed.


(** ** Uploading several files *)

Lemma bulk_step_spec (total : nat) (a : Bulk.t) (f : upload_job) :
  let a' := bulk_step total a f in
  World.calls (Bulk.w a') = (World.calls (Bulk.w a) ++ ["/api/upload"])%list
  /\ (Bulk.ok a' + Bulk.fail a')%nat = (Bulk.ok a + Bulk.fail a + 1)%nat
  /\ Bulk.ok a' = (Bulk.ok a + if upload_ok (snd f) then 1 else 0)%nat
  /\ Bulk.i a' = (Bulk.i a + 1)%nat.
Proof.
  destruct f as [[fname ticks] r]. cbn zeta. unfold bulk_step.
  match goal with
  | |- context [await_api ?p r ?w0] =>
      destruct (await_api_spec p r w0) as (Hv & Hc & _ & _);
      destruct (await_api p r w0) as [w1 j]
  end.
  cbn [fst snd] in *. subst j. unfold upload_ok.
  destruct (api_value r) as [o|];
    [destruct (Uploaded.success (Body.fields o))|];
    cbn [Bulk.w Bulk.ok Bulk.fail Bulk.i]; repeat split;
    try exact Hc; lia.
Qed.

Lemma bulk_fold_spec (total : nat) (files : list upload_job) (a : Bulk.t) :
  let a' := fold_left (bulk_step total) files a in
  World.calls (Bulk.w a')
  = (World.calls (Bulk.w a) ++ repeat "/api/upload" (length files))%list
  /\ (Bulk.ok a' + Bulk.fail a')%nat
     = (Bulk.ok a + Bulk.fail a + length files)%nat
  /\ Bulk.ok a'
     = (Bulk.ok a
        + length (filter (fun f : upload_job => upload_ok (snd f) = true)
                         files))%nat.
Proof.
  revert a. induction files as [|f files IH]; intros a; cbn zeta.
  - cbn [fold_left length repeat]. rewrite app_nil_r.
    repeat split; cbn; lia.
  - cbn [fold_left length repeat].
    destruct (bulk_step_spec total a f) as (Hc & Hsum & Hok & _).
    destruct (IH (bulk_step total a f)) as (Hc' & Hsum' & Hok').
    cbn zeta in *. rewrite Hc', Hc, Hsum', Hsum, Hok', Hok.
    rewrite <- app_assoc. split; [reflexivity|]. split; [lia|].
    rewrite filter_cons.
    destruct (upload_ok (snd f));
      [rewrite decide_True by reflexivity
      |rewrite decide_False by discriminate]; cbn [length]; lia.
Qed.

Lemma uploadBulk_calls (files : list upload_job) (rs : Reads.t)
    (w : World.t) :
  World.calls (uploadBulk files rs w)
  = (World.calls w ++ repeat "/api/upload" (length files)
     ++ reload_paths)%list.
Proof.
  unfold uploadBulk.
  destruct (bulk_fold_spec (length files) files
              {| Bulk.w := w; Bulk.ok := 0; Bulk.fail := 0; Bulk.i := 0 |})
    as (Hc & _).
  cbn zeta in Hc. cbn [Bulk.w] in Hc.
  cbn [toast with_S World.calls]. rewrite loadAll_calls.
  cbn [with_S World.calls]. rewrite Hc, <- app_assoc. reflexivity.
Qed.

(** X13. A bulk upload posts every file once, in order, then clears the
    processing indicator and issues the seven reads of the reload once,
    whatever the outcomes of the uploads; its toast reports the number of
    uploads answered with success, the number of the others (left out when
    there is none) and the number of files. *)
Theorem uploadBulk_summary (files : list upload_job) (rs : Reads.t)
    (w : World.t) :
  let w' := uploadBulk files rs w in
  let n_ok :=
    length (filter (fun f : upload_job => upload_ok (snd f) = true) files) in
  World.calls w'
  = (World.calls w ++ repeat "/api/upload" (length files)
     ++ reload_paths)%list
  /\ State.proc (World.S w') = None
  /\ (n_ok <= length files)%nat
  /\ State.toast (World.S w')
     = Some (bulk_msg n_ok (length files - n_ok) (length files)).
Proof.
  cbn zeta. unfold uploadBulk.
  destruct (bulk_fold_spec (length files) files
              {| Bulk.w := w; Bulk.ok := 0; Bulk.fail := 0; Bulk.i := 0 |})
    as (Hc & Hsum & Hok).
  cbn zeta in Hc, Hsum, Hok. cbn [Bulk.w Bulk.ok Bulk.fail] in Hc, Hsum, Hok.
  set (a := fold_left (bulk_step (length files)) files _) in *.
  split; [|split; [|split]].
  - apply uploadBulk_calls.
  - cbn [toast with_S World.S set_toast State.proc].
    pose proof (loadAll_ui rs (with_S (set_proc None) (Bulk.w a))) as Hui.
    unfold ui_fields in Hui. injection Hui as _ Hp _ _ _ _ _ _.
    rewrite Hp. reflexivity.
  - apply length_filter.
  - cbn [toast with_S World.S set_toast State.toast].
    f_equal. f_equal; lia.
Qed.

Lemma reload_has_no_upload : upload_posts reload_paths = 0%nat.
Proof. reflexivity. Qed.

Lemma upload_posts_app (l k : list string) :
  upload_posts (l ++ k) = (upload_posts l + upload_posts k)%nat.
Proof. unfold upload_posts. rewrite filter_app, length_app. reflexivity. Qed.

Lemma upload_posts_repeat (n : nat) :
  upload_posts (repeat "/api/upload" n) = n.
Proof.
  induction n as [|n IH]; [reflexivity|].
  cbn [repeat]. unfold upload_posts in *. rewrite filter_cons.
  rewrite decide_True by reflexivity. cbn [length]. rewrite IH. reflexivity.
Qed.

(** X14. However many files are chosen or dropped, none, one or several,
    the requests that follow hold exactly one post to the upload endpoint
    per file; with no file nothing changes at all. *)
Theorem files_chosen_posts `{Host} (files : list upload_job) (rs : Reads.t)
    (w : World.t) :
  upload_posts (drop (length (World.calls w))
                     (World.calls (fst (files_chosen files rs w))))
  = length files
  /\ files_chosen [] rs w = (w, Normal tt).
Proof.
  split; [|reflexivity].
  destruct files as [|[[fname ticks] r] [|f2 files]].
  - cbn [files_chosen fst]. rewrite drop_all. reflexivity.
  - cbn [files_chosen length].
    destruct (uploadFile_cases fname ticks r rs w)
      as (w1 & Hc & _ & _ & ->).
    assert (Hone : upload_posts (drop (length (World.calls w))
                                      (World.calls w1)) = 1%nat).
    { rewrite Hc, drop_app_length. reflexivity. }
    destruct (api_value r) as [o|]; cbn zeta.
    + destruct (Uploaded.success (Body.fields o)).
      * destruct (Uploaded.document (Body.fields o)) as [d|];
          cbn [fst]; [|exact Hone].
        rewrite loadAll_calls. cbn [toast with_S World.calls].
        rewrite Hc, <- app_assoc, drop_app_length.
        rewrite upload_posts_app, reload_has_no_upload. reflexivity.
      * cbn [fst toast with_S World.calls]. exact Hone.
    + cbn [fst toast with_S World.calls]. exact Hone.
  - set (fs := ((fname, ticks, r) :: f2 :: files)).
    change (upload_posts (drop (length (World.calls w))
                               (World.calls (uploadBulk fs rs w)))
            = length fs).
    rewrite (uploadBulk_calls fs rs w), drop_app_length.
    rewrite upload_posts_app, upload_posts_repeat, reload_has_no_upload.
    apply Nat.add_0_r.
Qed.

(** ** The session: expiry, reload and sign-out *)

Lemma expired_idemp s : expired (expired s) = expired s.
Proof.
  destruct s as [[[t u] c] st]. cbn [expired]. f_equal.
  apply map_eq. intros k.
  destruct (decide (k = "al_user")) as [->|Hu];
    [rewrite !lookup_delete_eq; reflexivity|].
  rewrite !(lookup_delete_ne _ "al_user") by congruence.
  destruct (decide (k = "al_token")) as [->|Ht];
    [rewrite !lookup_delete_eq; reflexivity|].
  repeat (rewrite lookup_delete_ne by congruence).
  reflexivity.
Qed.

Lemma expire_session_session (w : World.t) :
  session (expire_session w) = expired (session w).
Proof. reflexivity. Qed.

Lemma await_api_session {T} (p : string) (r : fetched T) (w : World.t) :
  session (fst (await_api p r w))
  = if unauthorized r then expired (session w) else session w.
Proof.
  unfold await_api, api, api_try, unauthorized.
  destruct r as [|status json]; [reflexivity|].
  destruct (status =? 401)%nat; [reflexivity|].
  destruct json as [[|o]|];
    destruct (negb (ok status) && (status =? 403)%nat); reflexivity.
Qed.

Lemma loadAll_session_eq (rs : Reads.t) (w : World.t) :
  session (loadAll rs w)
  = if reads_unauthorized rs then expired (session w) else session w.
Proof.
  unfold loadAll, reads_unauthorized.
  pose proof (await_api_session "/api/dashboard" (Reads.dashboard rs) w) as H1.
  destruct (await_api "/api/dashboard" (Reads.dashboard rs) w) as [w1 d].
  pose proof (await_api_session "/api/documents" (Reads.documents rs) w1)
    as H2.
  destruct (await_api "/api/documents" (Reads.documents rs) w1) as [w2 dc].
  pose proof (await_api_session "/api/matches" (Reads.matches rs) w2) as H3.
  destruct (await_api "/api/matches" (Reads.matches rs) w2) as [w3 m].
  pose proof (await_api_session "/api/anomalies" (Reads.anomalies rs) w3)
    as H4.
  destruct (await_api "/api/anomalies" (Reads.anomalies rs) w3) as [w4 an].
  pose proof (await_api_session "/api/vendors" (Reads.vendors rs) w4) as H5.
  destruct (await_api "/api/vendors" (Reads.vendors rs) w4) as [w5 vnd].
  pose proof (await_api_session "/api/triage" (Reads.triage rs) w5) as H6.
  destruct (await_api "/api/triage" (Reads.triage rs) w5) as [w6 tri].
  pose proof (await_api_session "/api/policy" (Reads.policy rs) w6) as H7.
  destruct (await_api "/api/policy" (Reads.policy rs) w6) as [w7 pol].
  cbn [fst] in *.
  change (session (with_S _ w7)) with (session w7).
  rewrite H7, H6, H5, H4, H3, H2, H1.
  destruct (unauthorized (Reads.dashboard rs)),
           (unauthorized (Reads.documents rs)),
           (unauthorized (Reads.matches rs)),
           (unauthorized (Reads.anomalies rs)),
           (unauthorized (Reads.vendors rs)),
           (unauthorized (Reads.triage rs)),
           (unauthorized (Reads.policy rs));
    cbn [orb]; rewrite ?expired_idemp; reflexivity.
Qed.

(** X15. A request answered with status 401 makes [api] resolve to null
    and drops the session: the token and the user of the state are null,
    both keys are removed from the session storage, and the login screen is
    rendered; the loaded collections and the toast stay as they were. *)
Theorem api_unauthorized {T} (p : string) (json : option (Body.t T))
    (w : World.t) :
  let w' := fst (api p (Response 401 json) w) in
  snd (api p (Response 401 json) w) = Normal None
  /\ State.authToken (World.S w') = None
  /\ State.authUser (World.S w') = None
  /\ World.sessionStorage w'
     = delete "al_user" (delete "al_token" (World.sessionStorage w))
  /\ World.sessionStorage w' !! "al_token" = None
  /\ World.sessionStorage w' !! "al_user" = None
  /\ R (World.S w') = LoginScreen
  /\ collections (World.S w') = collections (World.S w)
  /\ State.toast (World.S w') = State.toast (World.S w).
Proof.
  cbn zeta. unfold api, api_try. cbn [Nat.eqb fst snd].
  cbn [expire_session log_call World.S World.sessionStorage World.calls].
  do 4 (split; [reflexivity|]).
  split.
  { rewrite lookup_delete_ne by discriminate. apply lookup_delete_eq. }
  split; [apply lookup_delete_eq|].
  repeat split; reflexivity.
Qed.

(** X16. Only status 401 touches the session: after any other answer, and
    after a request that got none, the token, the user, the screen and the
    session storage are as before. A toast appears only for status 403 with
    an object as body, and reads its detail, or Insufficient authority
    without one. *)
Theorem api_keeps_session {T} (p : string) (status : nat)
    (json : option (Body.t T)) (w : World.t) (Hst : status <> 401%nat) :
  let w' := fst (api p (Response status json) w) in
  session w' = session w
  /\ R (World.S w') = R (World.S w)
  /\ (State.toast (World.S w') = State.toast (World.S w)
      \/ status = 403%nat
         /\ exists o, json = Some (Body.JObj o)
                      /\ State.toast (World.S w')
                         = Some (str_or (Body.detail o)
                                        "Insufficient authority"))
  /\ fst (api p (@Rejected T) w) = log_call p w.
Proof.
  cbn zeta. unfold api, api_try.
  apply Nat.eqb_neq in Hst. rewrite Hst.
  destruct json as [[|o]|];
    destruct (negb (ok status) && (status =? 403)%nat) eqn:H403;
    cbn [fst]; (split; [reflexivity|]); (split; [reflexivity|]);
    (split; [|reflexivity]); try (left; reflexivity).
  right. apply andb_true_iff in H403 as [_ H403].
  apply Nat.eqb_eq in H403. split; [exact H403|].
  exists o. split; reflexivity.
Qed.

Lemma api_keeps_session_witness :
  session (fst (api "/api/documents"
                    (Response 500 (@None (Body.t unit))) Sample.w_loaded))
  = session Sample.w_loaded.
Proof.
  apply (api_keeps_session "/api/documents" 500 None Sample.w_loaded).
  discriminate.
Defined.

(** X17. A reload drops the session exactly when one of its seven reads
    is answered with status 401: the login screen is then rendered and
    the stored token is gone; otherwise the token, the user, the screen
    and the session storage are as before. *)
Theorem loadAll_session (rs : Reads.t) (w : World.t) :
  let w' := loadAll rs w in
  if reads_unauthorized rs
  then session w' = expired (session w)
       /\ R (World.S w') = LoginScreen
       /\ State.authToken (World.S w') = None
       /\ World.sessionStorage w' !! "al_token" = None
  else session w' = session w.
Proof.
  cbn zeta. pose proof (loadAll_session_eq rs w) as Hs.
  destruct (reads_unauthorized rs); [|exact Hs].
  split; [exact Hs|].
  unfold session, expired in Hs. injection Hs as Ht _ Hscr Hst.
  split; [|split; [exact Ht|]].
  - unfold R. rewrite Hscr. reflexivity.
  - rewrite Hst. rewrite lookup_delete_ne by discriminate.
    apply lookup_delete_eq.
Qed.

(** ** Seeding and clearing the data *)

(** X18. Loading the sample data first reads the data status. With
    records in the database and the dialog declined nothing else is
    requested; the reset is posted only with records and a confirmation,
    and before the seed; the reload follows only a seed answered with
    success, and without it the collections stay as they were. Clearing
    the data does nothing when its dialog is declined. *)
Theorem seedDemo_requests (st : fetched Seed.status) (confirmed : bool)
    (reset : fetched unit) (seed : fetched Seed.t) (rs : Reads.t)
    (w : World.t) :
  let w' := seedDemo st confirmed reset seed rs w in
  World.calls w'
  = (World.calls w
     ++ "/api/data-status"
        :: (if has_records st && negb confirmed then []
            else (if has_records st then ["/api/reset"] else [])
                 ++ "/api/seed-demo"
                    :: (if seeded seed then reload_paths else [])))%list
  /\ (collections (World.S w') = collections (World.S w)
      \/ seeded seed = true
         /\ (has_records st && negb confirmed) = false)
  /\ resetAll false reset rs w = w.
Proof.
  cbn zeta. split; [|split; [|reflexivity]].
  - unfold seedDemo, has_records, seeded.
    destruct (await_api_spec "/api/data-status" st w) as (Hv & Hc & _).
    destruct (await_api "/api/data-status" st w) as [w1 v1].
    cbn [fst snd] in Hv, Hc. subst v1.
    set (has := match api_value st with
                | Some o => gt0 (Seed.total_records (Body.fields o))
                | None => false
                end).
    destruct has; cbn [andb negb].
    + destruct confirmed; cbn [negb]; [|exact Hc].
      destruct (await_api_spec "/api/reset" reset w1) as (_ & Hc2 & _).
      destruct (await_api_spec "/api/seed-demo" seed
                  (fst (await_api "/api/reset" reset w1))) as (Hv3 & Hc3 & _).
      destruct (await_api "/api/seed-demo" seed
                  (fst (await_api "/api/reset" reset w1))) as [w3 v3].
      cbn [fst snd] in Hv3, Hc3. subst v3.
      destruct (api_value seed) as [o|];
        [destruct (Seed.success (Body.fields o))|];
        cbn [toast with_S World.calls]; rewrite ?loadAll_calls, Hc3, Hc2, Hc;
        rewrite <- ?app_assoc; reflexivity.
    + destruct (await_api_spec "/api/seed-demo" seed w1) as (Hv3 & Hc3 & _).
      destruct (await_api "/api/seed-demo" seed w1) as [w3 v3].
      cbn [fst snd] in Hv3, Hc3. subst v3.
      destruct (api_value seed) as [o|];
        [destruct (Seed.success (Body.fields o))|];
        cbn [toast with_S World.calls]; rewrite ?loadAll_calls, Hc3, Hc;
        rewrite <- ?app_assoc; reflexivity.
  - unfold seedDemo, has_records, seeded.
    destruct (await_api_spec "/api/data-status" st w) as (Hv & _ & Hk & _).
    destruct (await_api "/api/data-status" st w) as [w1 v1].
    cbn [fst snd] in Hv, Hk. subst v1.
    set (has := match api_value st with
                | Some o => gt0 (Seed.total_records (Body.fields o))
                | None => false
                end).
    destruct (has && negb confirmed) eqn:Hdec; [left; exact Hk|].
    assert (Hk2 : collections
                    (World.S (if has
                              then fst (await_api "/api/reset" reset w1)
                              else w1))
                  = collections (World.S w)).
    { destruct has; [|exact Hk].
      destruct (await_api_spec "/api/reset" reset w1) as (_ & _ & Hk2 & _).
      rewrite Hk2. exact Hk. }
    set (w2 := if has then fst (await_api "/api/reset" reset w1) else w1) in *.
    destruct (await_api_spec "/api/seed-demo" seed w2) as (Hv3 & _ & Hk3 & _).
    destruct (await_api "/api/seed-demo" seed w2) as [w3 v3].
    cbn [fst snd] in Hv3, Hk3. subst v3.
    destruct (api_value seed) as [o|];
      [destruct (Seed.success (Body.fields o))|].
    + right. split; reflexivity.
    + left. cbn [toast with_S World.S]. rewrite <- Hk2, <- Hk3. reflexivity.
    + left. cbn [toast with_S World.S]. rewrite <- Hk2, <- Hk3. reflexivity.
Qed.


(** ** Signing in *)

(** X20. Whenever a sign-in ends with an error message, the session
    storage, the screen, the collections, the role and the toast are as
    before and no reload was issued: either nothing was requested, or only
    the sign-in itself. The token of the state changes in one case only: a
    successful answer that holds no user. *)
Theorem doAuth_error `{Text} (mode : string) (f : AuthForm.t)
    (r : fetched AuthBody.t) (rs : Reads.t) (a : Auth.t)
    (Herr : Auth.authError (doAuth mode f r rs a) <> None) :
  let w := Auth.world a in
  let w' := Auth.world (doAuth mode f r rs a) in
  World.sessionStorage w' = World.sessionStorage w
  /\ State.scr (World.S w') = State.scr (World.S w)
  /\ collections (World.S w') = collections (World.S w)
  /\ ui_fields (World.S w') = ui_fields (World.S w)
  /\ State.toast (World.S w') = State.toast (World.S w)
  /\ (World.calls w' = World.calls w
      \/ World.calls w'
         = (World.calls w
            ++ [if bool_decide (mode = "register")
                then "/api/auth/register" else "/api/auth/login"])%list)
  /\ (State.authToken (World.S w') = State.authToken (World.S w)
      \/ exists status o,
           r = Response status (Some (Body.JObj o))
           /\ ok status = true
           /\ AuthBody.user (Body.fields o) = None).
Proof.
  cbn zeta. revert Herr. unfold doAuth.
  destruct (bool_decide (trim (default "" (AuthForm.email f)) = "")
            || negb (occurs "@" (trim (default "" (AuthForm.email f)))));
    [intros _; cbn; repeat split; auto|].
  destruct (js_length (default "" (AuthForm.password f)) <? 6)%nat;
    [intros _; cbn; repeat split; auto|].
  destruct (bool_decide (mode = "register")
            && bool_decide (trim (default "" (AuthForm.name f)) = ""));
    [intros _; cbn; repeat split; auto|].
  cbn zeta.
  destruct r as [|status [[|o]|]];
    try solve [intros _; cbn [auth_fail Auth.world log_call World.S
                              World.sessionStorage World.calls];
               repeat split; auto].
  destruct (ok status) eqn:Hok; cbn [negb];
    [|intros _; cbn [auth_fail Auth.world log_call World.S
                     World.sessionStorage World.calls];
      repeat split; auto].
  destruct (AuthBody.user (Body.fields o)) as [u|] eqn:Hu.
  - cbn [Auth.authError]. congruence.
  - intros _. cbn [auth_fail Auth.world log_call World.S with_S
                   World.sessionStorage World.calls].
    do 5 (split; [reflexivity|]). split; [right; reflexivity|].
    right. exists status, o. repeat split; auto.
Qed.

Lemma doAuth_error_witness :
  World.sessionStorage
    (Auth.world
       (@doAuth PlainText.text "login"
          {| AuthForm.email := Some "ann@example.com";
             AuthForm.password := Some "secret1";
             AuthForm.name := None; AuthForm.role := None |}
          Rejected Sample.reads_offline
          {| Auth.world := Sample.w_loaded; Auth.authError := None;
             Auth.authLoading := false |}))
  = World.sessionStorage Sample.w_loaded.
Proof.
  apply (@doAuth_error PlainText.text "login"
           {| AuthForm.email := Some "ann@example.com";
              AuthForm.password := Some "secret1";
              AuthForm.name := None; AuthForm.role := None |}
           Rejected Sample.reads_offline
           {| Auth.world := Sample.w_loaded; Auth.authError := None;
              Auth.authLoading := false |}).
  vm_compute. discriminate.
Defined.

(** X21. A sign-in with an address holding an at sign and a password of
    six characters or more, a name too when registering, answered with
    success and a user, posts to the endpoint of its mode and then issues
    the reload once. It greets the user by name, takes the role of the user
    as current role, and enters the application with the token and the user
    in the state and in the session storage, unless a read of the reload is
    answered 401, which drops that session again. *)
Theorem doAuth_success `{Text} (mode : string) (f : AuthForm.t)
    (status : nat) (d : option string) (tok : option string) (u : User.t)
    (rs : Reads.t) (a : Auth.t)
    (Hmail : occurs "@" (trim (default "" (AuthForm.email f))) = true)
    (Hpw : (6 <= js_length (default "" (AuthForm.password f)))%nat)
    (Hname : mode = "register"
             -> trim (default "" (AuthForm.name f)) <> "")
    (Hok : ok status = true) :
  let r := Response status
             (Some (Body.JObj
                      {| Body.detail := d;
                         Body.fields := {| AuthBody.token := tok;
                                           AuthBody.user := Some u |} |})) in
  let w := Auth.world a in
  let a' := doAuth mode f r rs a in
  let w' := Auth.world a' in
  let signed :=
    (tok, Some u, "app",
     <["al_user" := JSON_stringify_user u]>
       (<["al_token" := to_string tok]> (World.sessionStorage w))) in
  Auth.authError a' = None
  /\ Auth.authLoading a' = false
  /\ World.calls w'
     = (World.calls w
        ++ (if bool_decide (mode = "register")
            then "/api/auth/register" else "/api/auth/login")
           :: reload_paths)%list
  /\ State.toast (World.S w')
     = Some ("Welcome, " ++ to_string (User.name u) ++ "!")
  /\ State.currentRole (World.S w') = default "" (User.role u)
  /\ session w' = if reads_unauthorized rs then expired signed else signed.
Proof.
  cbn zeta. unfold doAuth.
  assert (Hne : bool_decide (trim (default "" (AuthForm.email f)) = "")
                = false).
  { apply bool_decide_eq_false_2. intros He. rewrite He in Hmail.
    discriminate. }
  rewrite Hne, Hmail. cbn [negb orb].
  assert (Hlen : (js_length (default "" (AuthForm.password f)) <? 6)%nat
                 = false) by (apply Nat.ltb_ge; exact Hpw).
  rewrite Hlen.
  assert (Hn : bool_decide (mode = "register")
               && bool_decide (trim (default "" (AuthForm.name f)) = "")
               = false).
  { destruct (decide (mode = "register")) as [Hm|Hm].
    - rewrite (bool_decide_eq_false_2 _ (Hname Hm)). apply andb_false_r.
    - rewrite (bool_decide_eq_false_2 _ Hm). reflexivity. }
  rewrite Hn. cbn zeta. rewrite Hok. cbn [negb Body.fields AuthBody.user
                                          AuthBody.token].
  cbn [Auth.authError Auth.authLoading Auth.world].
  do 2 (split; [reflexivity|]).
  split.
  { cbn [toast with_S World.calls]. rewrite loadAll_calls.
    cbn [with_S log_call World.calls]. rewrite <- app_assoc. reflexivity. }
  split; [reflexivity|].
  split.
  { match goal with
    | |- State.currentRole (World.S (toast _ (loadAll rs ?w0))) = _ =>
        pose proof (loadAll_ui rs w0) as Hui
    end.
    unfold ui_fields in Hui. injection Hui as _ _ _ _ _ _ _ Hr.
    exact Hr. }
  change (session (toast ?m ?w0)) with (session w0).
  rewrite loadAll_session_eq. reflexivity.
Qed.

Lemma doAuth_success_witness :
  State.toast
    (World.S
       (Auth.world
          (@doAuth PlainText.text "register"
             {| AuthForm.email := Some " ann@example.com ";
                AuthForm.password := Some "secret1";
                AuthForm.name := Some "Ann"; AuthForm.role := Some "vp" |}
             (Response 200
                (Some (Body.JObj
                         {| Body.detail := None;
                            Body.fields :=
                              {| AuthBody.token := Some "t0";
                                 AuthBody.user :=
                                   Some {| User.name := Some "Ann";
                                           User.email := None;
                                           User.role := Some "vp" |} |} |})))
             Sample.reads_offline
             {| Auth.world := Sample.w_loaded; Auth.authError := None;
                Auth.authLoading := false |})))
  = Some "Welcome, Ann!".
Proof.
  apply (@doAuth_success PlainText.text "register"
           {| AuthForm.email := Some " ann@example.com ";
              AuthForm.password := Some "secret1";
              AuthForm.name := Some "Ann"; AuthForm.role := Some "vp" |}
           200 None (Some "t0")
           {| User.name := Some "Ann"; User.email := None;
              User.role := Some "vp" |}
           Sample.reads_offline
           {| Auth.world := Sample.w_loaded; Auth.authError := None;
              Auth.authLoading := false |}).
  - reflexivity.
  - cbn. lia.
  - intros _. vm_compute. discriminate.
  - reflexivity.
Defined.

(** ** Entering the application *)

(** X22. At start the application is entered exactly when the session
    storage holds a non-empty token and a non-empty user entry, also when
    that entry is not JSON, the user of the state then being null: the
    reload is issued once, and the session is the stored one unless a read
    is answered 401. Otherwise the state is the initial one, the landing
    page is rendered and nothing is requested. *)
Theorem boot_entry `{Text} (storage : gmap string string) (rs : Reads.t) :
  let w := boot storage rs in
  match storage !! "al_token", storage !! "al_user" with
  | Some (String c t), Some (String d u) =>
      let stored :=
        (Some (String c t),
         match JSON_parse_user (String d u) with
         | Normal usr => usr
         | Throw => None
         end, "app", storage) in
      World.calls w = reload_paths
      /\ session w = (if reads_unauthorized rs then expired stored
                      else stored)
  | _, _ =>
      w = {| World.S := S_initial; World.sessionStorage := storage;
             World.calls := [] |}
      /\ R (World.S w) = Landing
  end.
Proof.
  cbn zeta. unfold boot, restore. cbn [World.sessionStorage].
  destruct (storage !! "al_token") as [[|c t]|];
    [split; reflexivity| |split; reflexivity].
  destruct (storage !! "al_user") as [[|d u]|];
    [split; reflexivity| |split; reflexivity].
  destruct (JSON_parse_user (String d u)) as [[usr|]|];
    cbn [with_S World.S set_authToken set_authUser set_currentRole
         State.authToken];
    (split; [rewrite loadAll_calls; reflexivity
            |rewrite loadAll_session_eq; reflexivity]).
Qed.

(** X23. The buttons of the landing page always leave it: without a token
    the login screen is rendered and nothing is requested; with one the
    application is entered and the reload issued once. *)
Theorem go_click_leaves_landing (rs : Reads.t) (w : World.t) :
  let w' := go_click rs w in
  R (World.S w') <> Landing
  /\ match State.authToken (World.S w) with
     | Some (String _ _) =>
         World.calls w' = (World.calls w ++ reload_paths)%list
         /\ (reads_unauthorized rs = false
             /\ State.scr (World.S w') = "app"
             \/ reads_unauthorized rs = true
                /\ R (World.S w') = LoginScreen)
     | _ => World.calls w' = World.calls w
            /\ R (World.S w') = LoginScreen
     end.
Proof.
  cbn zeta. unfold go_click.
  assert (Happ : forall w0 : World.t,
             State.scr (World.S w0) = "app" \/ State.scr (World.S w0) = "login"
             -> R (World.S w0) <> Landing).
  { intros w0 [Hs|Hs]; unfold R; rewrite Hs; discriminate. }
  assert (Hload :
    let w1 := loadAll rs (with_S (set_scr "app") w) in
    reads_unauthorized rs = false /\ State.scr (World.S w1) = "app"
    \/ reads_unauthorized rs = true /\ State.scr (World.S w1) = "login").
  { cbn zeta.
    pose proof (loadAll_session_eq rs (with_S (set_scr "app") w)) as Hs.
    destruct (reads_unauthorized rs);
      unfold session, expired in Hs; injection Hs as _ _ Hscr _;
      [right|left]; split; auto. }
  cbn zeta in Hload.
  destruct (State.authToken (World.S w)) as [[|c t]|];
    try (split; [apply Happ; right; reflexivity|split; reflexivity]).
  split; [apply Happ; tauto|].
  split; [rewrite loadAll_calls; reflexivity|].
  destruct Hload as [[Hu Hs]|[Hu Hs]]; [left; auto|right].
  split; [exact Hu|]. unfold R. rewrite Hs. reflexivity.
Qed.

(** ** Opening and editing a document *)






Lemma obj_get_obj_set {A} (o : list (string * A)) (k k' : string) (v : A) :
  obj_get (obj_set k v o) k'
  = if String.eqb k k' then Some v else obj_get o k'.
Proof.
  induction o as [|[k0 v0] o IH]; [reflexivity|].
  cbn [obj_set]. destruct (String.eqb k0 k) eqn:H0.
  - apply String.eqb_eq in H0. subst k0. cbn [obj_get].
    destruct (String.eqb k k'); reflexivity.
  - cbn [obj_get]. rewrite IH.
    destruct (String.eqb k0 k') eqn:H1; [|reflexivity].
    apply String.eqb_eq in H1. subst k0. rewrite String.eqb_sym, H0.
    reflexivity.
Qed.



(** ** Saving corrections: what is posted *)

Section SaveEdits.
Context `{Host}.

Lemma li_key_step_other (lis : list LineItem.t) (kv : string * string)
    (i : nat) :
  li_index (fst kv) <> Some i -> li_key_step lis kv !! i = lis !! i.
Proof.
  destruct kv as [k v]. cbn [fst]. intros Hi. unfold li_key_step.
  destruct (li_index k) as [j|]; [|reflexivity].
  destruct (lis !! j); [|reflexivity].
  apply list_lookup_insert_ne. congruence.
Qed.

Lemma fold_other (keys : list (string * string)) (i : nat) :
  (forall kv, kv ∈ keys -> li_index (fst kv) <> Some i) ->
  forall lis, fold_left li_key_step keys lis !! i = lis !! i.
Proof.
  induction keys as [|kv keys IH]; intros Hk lis; [reflexivity|].
  cbn [fold_left]. rewrite IH.
  - apply li_key_step_other. apply Hk. apply list_elem_of_here.
  - intros kv' Hin. apply Hk. apply list_elem_of_further. exact Hin.
Qed.




(** X26. When corrections are saved, the request addresses the open
    document; no key of a line-item input is among the posted fields, whose
    keys are the other keys of the edit fields in their order. Line items
    are posted only if some line-item input was edited: as many items as the
    document has, and every item that no edited key addresses is posted as
    it is stored. *)
Theorem saveEdits_frame (s : State.t) (req : EditRequest.t)
    (Hreq : saveEdits_request s = Some req) :
  exists sel,
    State.sel s = Some sel /\ State.editing s = true
    /\ EditRequest.path req
       = "/api/documents/" ++ Doc.id sel ++ "/edit-fields"
    /\ map fst (EditRequest.fields req)
       = map fst (List.filter (fun kv => negb (is_li_key kv))
                              (State.editFields s))
    /\ (forall k, k ∈ map fst (EditRequest.fields req) ->
                  String.prefix "li_" k = false)
    /\ match EditRequest.lineItems req with
       | Some lis =>
           length lis = length (default [] (Doc.lineItems sel))
           /\ (exists kv, kv ∈ State.editFields s /\ is_li_key kv = true)
           /\ (forall i,
                 (forall kv, kv ∈ State.editFields s -> is_li_key kv = true ->
                             li_index (fst kv) <> Some i) ->
                 lis !! i = default [] (Doc.lineItems sel) !! i)
       | None => forall kv, kv ∈ State.editFields s -> is_li_key kv = false
       end.
Proof.
  unfold saveEdits_request in Hreq.
  destruct (State.sel s) as [sel|]; [|discriminate].
  destruct (State.editing s); [|discriminate]. cbn [negb] in Hreq.
  exists sel. do 2 (split; [reflexivity|]).
  set (ef := State.editFields s) in *.
  assert (Hkeys : forall l : list (string * string),
             map fst (map parse_numeric l) = map fst l).
  { induction l as [|[k v] l IH]; [reflexivity|].
    cbn [map]. rewrite IH. f_equal. unfold parse_numeric.
    destruct ((bool_decide (k = "amount") || bool_decide (k = "subtotal"))
              && negb (bool_decide (v = ""))); reflexivity. }
  assert (Hreq' :
    req = {| EditRequest.path :=
               "/api/documents/" ++ Doc.id sel ++ "/edit-fields";
             EditRequest.fields :=
               map parse_numeric
                   (List.filter (fun kv => negb (is_li_key kv)) ef);
             EditRequest.lineItems :=
               match List.filter is_li_key ef with
               | [] => None
               | _ => Some (fold_left li_key_step (List.filter is_li_key ef)
                              (default [] (Doc.lineItems sel)))
               end |}).
  { destruct ef; [discriminate|]. injection Hreq as <-. reflexivity. }
  subst req. cbn [EditRequest.path EditRequest.fields EditRequest.lineItems].
  split; [reflexivity|]. split; [apply Hkeys|]. split.
  { intros k Hk. rewrite Hkeys in Hk.
    apply list_elem_of_fmap in Hk as ([k' v'] & -> & Hin).
    apply list_elem_of_In, filter_In in Hin as [_ Hli].
    apply negb_true_iff in Hli. exact Hli. }
  destruct (List.filter is_li_key ef) as [|kv0 rest] eqn:Hf.
  - intros kv Hin. destruct (is_li_key kv) eqn:Hli; [|reflexivity].
    assert (Hkv : In kv (List.filter is_li_key ef)).
    { apply filter_In. split; [apply list_elem_of_In, Hin|exact Hli]. }
    rewrite Hf in Hkv. destruct Hkv.
  - split; [apply fold_length|]. split.
    + exists kv0.
      assert (Hkv : In kv0 (List.filter is_li_key ef))
        by (rewrite Hf; left; reflexivity).
      apply filter_In in Hkv as [Hin Hli].
      split; [apply list_elem_of_In, Hin|exact Hli].
    + intros i Hi. apply fold_other. intros kv Hin.
      rewrite <- Hf in Hin.
      apply list_elem_of_In, filter_In in Hin as [Hin Hli].
      apply Hi; [apply list_elem_of_In, Hin|exact Hli].
Qed.


End SaveEdits.

Lemma saveEdits_frame_witness :
  exists sel,
    State.sel Sample.s_editing = Some sel
    /\ State.editing Sample.s_editing = true.
Proof.
  destruct (@saveEdits_frame Reference.host Sample.s_editing
              (default {| EditRequest.path := ""; EditRequest.fields := [];
                          EditRequest.lineItems := None |}
                       (@saveEdits_request Reference.host Sample.s_editing)))
    as (sel & Hsel & Hed & _).
  - vm_compute. reflexivity.
  - exists sel. split; assumption.
Defined.


(** ** The status buttons of an invoice *)





(** ** Saving the policy *)

Section Policy.
Context `{Host}.
Variable f : list (string * scalar) -> PolicyInput.t -> list (string * scalar).
Hypothesis f_step : forall u inp,
  f u inp = match policy_entry inp with
            | Some x => obj_set (PolicyInput.key inp) x u
            | None => u
            end.

Lemma policy_fold_other (inputs : list PolicyInput.t)
    (u : list (string * scalar)) (k : string) :
  k ∉ map PolicyInput.key inputs ->
  obj_get (fold_left f inputs u) k = obj_get u k.
Proof.
  revert u. induction inputs as [|x inputs IH]; intros u Hk; [reflexivity|].
  cbn [map] in Hk. apply not_elem_of_cons in Hk as [Hne Hk].
  cbn [fold_left]. rewrite (IH _ Hk), f_step.
  destruct (policy_entry x); [|reflexivity].
  rewrite obj_get_obj_set.
  destruct (String.eqb (PolicyInput.key x) k) eqn:He; [|reflexivity].
  apply String.eqb_eq in He. congruence.
Qed.

Lemma policy_fold_entry (inputs : list PolicyInput.t)
    (u : list (string * scalar)) (inp : PolicyInput.t) :
  inp ∈ inputs -> NoDup (map PolicyInput.key inputs) ->
  obj_get (fold_left f inputs u) (PolicyInput.key inp)
  = match policy_entry inp with
    | Some x => Some x
    | None => obj_get u (PolicyInput.key inp)
    end.
Proof.
  revert u. induction inputs as [|x inputs IH]; intros u Hin Hnd.
  - apply elem_of_nil in Hin. destruct Hin.
  - cbn [map] in Hnd. apply NoDup_cons in Hnd as [Hx Hnd].
    cbn [fold_left].
    apply elem_of_cons in Hin as [->|Hin].
    + rewrite (policy_fold_other _ _ _ Hx), f_step.
      destruct (policy_entry x); [|reflexivity].
      rewrite obj_get_obj_set, String.eqb_refl. reflexivity.
    + rewrite (IH _ Hin Hnd), f_step.
      destruct (policy_entry inp); [reflexivity|].
      destruct (policy_entry x); [|reflexivity].
      rewrite obj_get_obj_set.
      destruct (String.eqb (PolicyInput.key x) (PolicyInput.key inp)) eqn:He;
        [|reflexivity].
      apply String.eqb_eq in He. exfalso. apply Hx. rewrite He.
      apply list_elem_of_fmap. exists inp. split; [reflexivity|exact Hin].
Qed.

End Policy.

(** X29. Saving the policy posts one entry per input of the screen, under
    the key of the input: the chosen text for a select, the parsed number
    for a number input, and no entry at all for a number input whose text
    does not parse; nothing else is in the body. It then reloads and shows
    Policy saved, whatever the answer. *)
Theorem save_policy_body `{Host} (inputs : list PolicyInput.t)
    (inp : PolicyInput.t) (r : fetched unit) (rs : Reads.t) (w : World.t)
    (Hin : inp ∈ inputs) (Hnd : NoDup (map PolicyInput.key inputs)) :
  let body := fst (save_policy inputs r rs w) in
  let w' := snd (save_policy inputs r rs w) in
  obj_get body (PolicyInput.key inp)
  = (if PolicyInput.is_select inp then Some (SStr (PolicyInput.value inp))
     else match parseFloat (PolicyInput.value inp) with
          | Num q => Some (SNum q)
          | _ => None
          end)
  /\ (forall k, k ∉ map PolicyInput.key inputs -> obj_get body k = None)
  /\ World.calls w' = (World.calls w ++ "/api/policy" :: reload_paths)%list
  /\ State.toast (World.S w') = Some "Policy saved".
Proof.
  cbn zeta. unfold save_policy, policy_updates. cbn [fst snd].
  set (f := fun (u : list (string * scalar)) (i : PolicyInput.t) => _).
  assert (Hf : forall u i,
             f u i = match policy_entry i with
                     | Some x => obj_set (PolicyInput.key i) x u
                     | None => u
                     end).
  { intros u i. unfold f, policy_entry.
    destruct (PolicyInput.is_select i); [reflexivity|].
    destruct (parseFloat (PolicyInput.value i)); reflexivity. }
  split; [|split].
  - rewrite (policy_fold_entry f Hf inputs [] inp Hin Hnd).
    unfold policy_entry. destruct (PolicyInput.is_select inp); [reflexivity|].
    destruct (parseFloat (PolicyInput.value inp)); reflexivity.
  - intros k Hk. rewrite (policy_fold_other f Hf inputs [] k Hk).
    reflexivity.
  - destruct (post_then_reload_spec "/api/policy" false "Policy saved"
                r rs w) as (Ht & Hc & _).
    split; assumption.
Qed.

Lemma save_policy_body_witness :
  obj_get (fst (@save_policy Reference.host
                  [{| PolicyInput.key := "matching_mode";
                      PolicyInput.is_select := true;
                      PolicyInput.value := "three_way" |};
                   {| PolicyInput.key := "amount_tolerance_pct";
                      PolicyInput.is_select := false;
                      PolicyInput.value := "abc" |}]
                  Rejected Sample.reads_offline Sample.w_loaded))
          "amount_tolerance_pct"
  = None.
Proof.
  refine (proj1 (@save_policy_body Reference.host
                   [{| PolicyInput.key := "matching_mode";
                       PolicyInput.is_select := true;
                       PolicyInput.value := "three_way" |};
                    {| PolicyInput.key := "amount_tolerance_pct";
                       PolicyInput.is_select := false;
                       PolicyInput.value := "abc" |}]
                   {| PolicyInput.key := "amount_tolerance_pct";
                      PolicyInput.is_select := false;
                      PolicyInput.value := "abc" |}
                   Rejected Sample.reads_offline Sample.w_loaded _ _)).
  - apply list_elem_of_further, list_elem_of_here.
  - vm_compute. repeat constructor; [|apply not_elem_of_nil].
    apply not_elem_of_cons. split; [discriminate|apply not_elem_of_nil].
Defined.

(** ** Switching the role *)

(** X30. For a visitor who is not signed in, choosing a role in the
    sidebar makes it the role the interface goes by: the AP Policy entry
    shows for every role but analyst, the Admin block for vp and cfo only,
    and a switch to analyst while the AP Policy screen is open leaves the
    access-restricted message in the main pane. The reload is issued once
    and the toast names the chosen option. *)
Theorem role_change_applies (value text : string) (rs : Reads.t)
    (w : World.t)
    (Hanon : State.authUser (World.S w) = None)
    (Hval : value ∈ ["analyst"; "manager"; "vp"; "cfo"]) :
  let s' := World.S (role_change value text rs w) in
  user_role s' = value
  /\ ("settings" ∈ nav_tabs s' <-> value <> "analyst")
  /\ (admin_actions s' <> [] <-> value ∈ ["vp"; "cfo"])
  /\ (State.tab (World.S w) = "settings" ->
      main_view s' = if bool_decide (value = "analyst")
                     then VAccessRestricted else VSettings)
  /\ World.calls (role_change value text rs w)
     = (World.calls w ++ reload_paths)%list
  /\ State.toast s' = Some ("Switched to " ++ text).
Proof.
  cbn zeta. unfold role_change.
  set (w0 := with_S (set_currentRole value) w).
  pose proof (loadAll_ui rs w0) as Hui.
  pose proof (loadAll_session_eq rs w0) as Hs.
  unfold ui_fields in Hui. injection Hui as Htab _ _ _ _ _ _ Hrole.
  assert (Huser : State.authUser (World.S (loadAll rs w0)) = None).
  { destruct (reads_unauthorized rs); unfold session, expired in Hs;
      injection Hs as _ Hu _ _; rewrite Hu; [reflexivity|exact Hanon]. }
  assert (Hur : user_role (World.S (toast ("Switched to " ++ text)
                                          (loadAll rs w0))) = value).
  { unfold user_role. cbn [toast with_S World.S set_toast State.authUser
                           State.currentRole].
    rewrite Huser, Hrole. reflexivity. }
  split; [exact Hur|].
  split; [|split; [|split; [|split]]].
  - rewrite nav_settings_iff, Hur.
    repeat (apply elem_of_cons in Hval as [->|Hval]);
      try (apply elem_of_nil in Hval; destruct Hval);
      (split; [intros [E|[E|E]]; discriminate|]); intros Hn;
      first [exfalso; apply Hn; reflexivity
            |left; reflexivity
            |right; left; reflexivity
            |right; right; reflexivity].
  - unfold admin_actions. rewrite Hur.
    repeat (apply elem_of_cons in Hval as [->|Hval]);
      try (apply elem_of_nil in Hval; destruct Hval);
      vm_compute; split; intros Hm;
      try solve [repeat constructor];
      try solve [exfalso; apply Hm; reflexivity];
      try solve [intros E; discriminate E];
      repeat (apply elem_of_cons in Hm as [Hm|Hm]);
      try discriminate; apply elem_of_nil in Hm; destruct Hm.
  - intros Hset. unfold main_view. rewrite Hur.
    cbn [toast with_S World.S set_toast State.tab]. rewrite Htab.
    change (State.tab (World.S w0)) with (State.tab (World.S w)).
    rewrite Hset.
    repeat (apply elem_of_cons in Hval as [->|Hval]);
      try (apply elem_of_nil in Hval; destruct Hval); reflexivity.
  - cbn [toast with_S World.calls]. rewrite loadAll_calls. reflexivity.
  - reflexivity.
Qed.

Lemma role_change_applies_witness :
  user_role (World.S (role_change "vp" "VP Finance" Sample.reads_offline
                                  Sample.w_loaded))
  = "vp".
Proof.
  apply (role_change_applies "vp" "VP Finance" Sample.reads_offline
           Sample.w_loaded).
  - reflexivity.
  - do 2 apply list_elem_of_further. apply list_elem_of_here.
Defined.
